(** * Weather dashboard: hash router, render pipeline and search debounce

    A shallow embedding of [assets/js/route.js] and [assets/js/app.js].
    The page is single threaded: every listener and every callback runs to
    completion on a store made of the DOM nodes the scripts touch, the
    module-level variables, and the browser's queues (timeouts, outstanding
    requests, queued hash-change events).  Callbacks are defunctionalised:
    each closure of the source is a constructor carrying the variables it
    captures. *)

From Stdlib Require Import ZArith QArith String Ascii List Bool Lia.
From stdpp Require Import base option list strings gmap.

Open Scope string_scope.
Open Scope list_scope.

(** ** JavaScript strings *)

Module JsString.

(** [s.slice(1)] *)
Definition slice1 (s : string) : string :=
  match s with
  | EmptyString => EmptyString
  | String _ r => r
  end.

(** [s.includes(c)] for a one-character needle. *)
Fixpoint includes (c : ascii) (s : string) : bool :=
  match s with
  | EmptyString => false
  | String a r => if Ascii.eqb a c then true else includes c r
  end.

(** [s.split(c)] for a one-character separator.  The result is never
    empty: the empty string splits into one empty piece. *)
Fixpoint split (c : ascii) (s : string) : list string :=
  match s with
  | EmptyString => [EmptyString]
  | String a r =>
      if Ascii.eqb a c then EmptyString :: split c r
      else match split c r with
           | h :: t => String a h :: t
           | [] => [String a EmptyString]
           end
  end.

(** [s.startsWith(p)] *)
Definition startsWith (p s : string) : bool := String.prefix p s.

(** The text of [s] before the first occurrence of [c] (all of [s] when
    there is none). *)
Fixpoint before (c : ascii) (s : string) : string :=
  match s with
  | EmptyString => EmptyString
  | String a r => if Ascii.eqb a c then EmptyString else String a (before c r)
  end.

(** The text of [s] after the first occurrence of [c]. *)
Fixpoint after (c : ascii) (s : string) : string :=
  match s with
  | EmptyString => EmptyString
  | String a r => if Ascii.eqb a c then r else after c r
  end.

(** String truthiness: only the empty string is falsy. *)
Definition truthy (s : string) : bool :=
  match s with
  | EmptyString => false
  | String _ _ => true
  end.

End JsString.

(** ** JavaScript numbers and scalar values

    A number is NaN, an infinity or a finite value; every finite double is a
    rational, and the comparisons of the language compare these values
    exactly, so finite numbers are carried as rationals. *)

Inductive number : Type :=
| NaN
| PosInf
| NegInf
| Fin (q : Q).

Definition Qlt_bool (x y : Q) : bool := negb (Qle_bool y x).

Module JsNum.

Definition isNaN (x : number) : bool :=
  match x with NaN => true | _ => false end.

(** [x < y] *)
Definition lt (x y : number) : bool :=
  match x, y with
  | NaN, _ | _, NaN => false
  | PosInf, _ => false
  | _, NegInf => false
  | NegInf, _ => true
  | _, PosInf => true
  | Fin a, Fin b => Qlt_bool a b
  end.

(** [x > y] *)
Definition gt (x y : number) : bool := lt y x.

(** [x === y] on numbers. *)
Definition strict_eq (x y : number) : bool :=
  match x, y with
  | PosInf, PosInf | NegInf, NegInf => true
  | Fin a, Fin b => Qeq_bool a b
  | _, _ => false
  end.

Definition of_Z (z : Z) : number := Fin (inject_Z z).

(** Number truthiness: NaN and zero are falsy. *)
Definition truthy (x : number) : bool :=
  match x with
  | NaN => false
  | Fin q => negb (Qeq_bool q 0)
  | _ => true
  end.

End JsNum.

(** A decoded JSON field whose type the code does not fix ([cod],
    [message]).  [JObject] stands for any object or array. *)
Inductive jsval : Type :=
| JUndefined
| JNull
| JBool (b : bool)
| JNum (n : number)
| JStr (s : string)
| JObject.

Definition truthy (v : jsval) : bool :=
  match v with
  | JUndefined | JNull => false
  | JBool b => b
  | JNum n => JsNum.truthy n
  | JStr s => JsString.truthy s
  | JObject => true
  end.

(** [v !== n] for a number literal [n]: values of another type are never
    strictly equal to it. *)
Definition strict_neq_num (v : jsval) (n : number) : bool :=
  match v with
  | JNum x => negb (JsNum.strict_eq x n)
  | _ => true
  end.

(** ** What the scripts take from outside

    [parseFloat] is the engine's; [aqiText] is the table of
    [assets/js/module.js], indexed by the air-quality level. *)

Record aqi_label : Type := { aqi_level : string; aqi_message : string }.

Class Env : Type := {
  parseFloat : string -> number;
  aqiText : Z -> option aqi_label
}.

(** A reading of the decimal literal grammar of [parseFloat]: leading
    blanks, a sign, [Infinity], or digits with an optional fraction and
    exponent; trailing text is ignored.  The value is the exact decimal
    (the engine then rounds it to the nearest double). *)
Module Decimal.

Definition digit (a : ascii) : option Z :=
  let n := Z.of_nat (nat_of_ascii a) in
  if ((48 <=? n) && (n <=? 57))%Z then Some (n - 48)%Z else None.

Definition blank (a : ascii) : bool :=
  let n := nat_of_ascii a in
  (Nat.eqb n 32 || Nat.eqb n 9 || Nat.eqb n 10 || Nat.eqb n 11
   || Nat.eqb n 12 || Nat.eqb n 13)%bool.

Fixpoint skip_blanks (s : string) : string :=
  match s with
  | String a r => if blank a then skip_blanks r else s
  | EmptyString => s
  end.

(** Reads a run of digits: accumulated value, number of digits, rest. *)
Fixpoint digits (acc : Z) (n : Z) (s : string) : Z * Z * string :=
  match s with
  | String a r =>
      match digit a with
      | Some d => digits (10 * acc + d)%Z (n + 1)%Z r
      | None => (acc, n, s)
      end
  | EmptyString => (acc, n, s)
  end.

Definition sign (s : string) : bool * string :=
  match s with
  | String "-" r => (true, r)
  | String "+" r => (false, r)
  | _ => (false, s)
  end.

Definition exponent (s : string) : Z :=
  match s with
  | String c r =>
      if (Ascii.eqb c "e" || Ascii.eqb c "E")%bool then
        let '(neg, r') := sign r in
        let '(e, n, _) := digits 0 0 r' in
        if (n =? 0)%Z then 0%Z else if neg then (- e)%Z else e
      else 0%Z
  | EmptyString => 0%Z
  end.

Definition scale (m : Z) (e : Z) : Q :=
  if (0 <=? e)%Z then inject_Z (m * 10 ^ e)
  else Qmake m (Z.to_pos (10 ^ (- e))).

Definition parse (s : string) : number :=
  let '(neg, r) := sign (skip_blanks s) in
  if JsString.startsWith "Infinity" r then (if neg then NegInf else PosInf)
  else
    let '(ip, ni, r1) := digits 0 0 r in
    let '(m, nf, r2) :=
      match r1 with
      | String "." r1' => digits ip 0 r1'
      | _ => (ip, 0%Z, r1)
      end in
    if ((ni =? 0) && (nf =? 0))%Z then NaN
    else
      let q := scale m (exponent r2 - nf) in
      Fin (if neg then Qopp q else q).

End Decimal.

(** The air-quality table as the spec's glossary has it: five levels. *)
Definition aqiText_five (aqi : Z) : option aqi_label :=
  if ((1 <=? aqi) && (aqi <=? 5))%Z
  then Some {| aqi_level := "level"; aqi_message := "message" |}
  else None.

Definition decimalEnv : Env :=
  {| parseFloat := Decimal.parse; aqiText := aqiText_five |}.

(** ** Decoded payloads

    The five endpoints answer with JSON of a fixed shape; the records keep
    the fields the scripts read, and arrays stay lists. *)

Record weather_desc : Type := { icon : string; description : string }.

Record current_body : Type := {
  cw_weather : list weather_desc;
  cw_dt : Z;
  cw_sunrise : Z;
  cw_sunset : Z;
  cw_temp : number;
  cw_feels_like : number;
  cw_pressure : number;
  cw_humidity : number;
  cw_visibility : number;
  cw_timezone : Z
}.

(** The current-weather answer: the embedded status, the error text, and
    the weather fields when the answer has them. *)
Record current_response : Type := {
  cod : jsval;
  message : jsval;
  body : option current_body
}.

Record forecast_point : Type := {
  dt : Z;
  main_temp : number;
  main_temp_max : number;
  weather : list weather_desc;
  wind_deg : number;
  wind_speed : number;
  dt_txt : string
}.

Record forecast_response : Type := {
  fc_list : list forecast_point;
  city_timezone : Z
}.

Record air_point : Type := {
  aqi : Z;
  no2 : number;
  o3 : number;
  so2 : number;
  pm2_5 : number
}.

Record place : Type := { place_name : string; place_country : string }.

Record location : Type := {
  loc_name : string;
  loc_lat : number;
  loc_lon : number;
  loc_country : string;
  loc_state : option string
}.

Inductive response : Type :=
| R_currentWeather (r : current_response)
| R_reverseGeo (l : list place)
| R_airPollution (l : list air_point)
| R_forecast (f : forecast_response)
| R_geo (l : list location).

(** ** Rendered nodes

    A node built from a template literal is the record of the values the
    template interpolates; the formatting helpers of [module.js] and
    [parseInt] are applied to them at display. *)

Record current_card : Type := {
  card_id : nat;
  card_temp : number;
  card_icon : string;
  card_description : string;
  card_dateUnix : Z;
  card_timezone : Z;
  card_location : option (string * string)
}.

Record highlight_card : Type := {
  hl_air : air_point;
  hl_label : aqi_label;
  hl_sunrise : Z;
  hl_sunset : Z;
  hl_timezone : Z;
  hl_humidity : number;
  hl_pressure : number;
  hl_visibility : number;
  hl_feels_like : number
}.

Record temp_li : Type := {
  t_time : Z;
  t_timezone : Z;
  t_icon : string;
  t_description : string;
  t_temp : number
}.

Record wind_li : Type := {
  w_time : Z;
  w_timezone : Z;
  w_direction : number;
  w_speed : number
}.

(** The two slider lists of the hourly section. *)
Record hourly : Type := { data_temp : list temp_li; data_wind : list wind_li }.

(** The date a forecast row shows: [new Date(dt_txt)], or that date after
    [setDate(getDate() + days)]. *)
Inductive date_label : Type :=
| DateOf (txt : string)
| DateShifted (txt : string) (days : Z).

Record day_li : Type := {
  d_icon : string;
  d_description : string;
  d_temp_max : number;
  d_date : date_label
}.

Record search_item : Type := {
  si_name : string;
  si_state : string;
  si_country : string;
  si_lat : number;
  si_lon : number
}.

(** ** Requests and closures *)

Inductive endpoint : Type :=
| url_currentWeather (lat lon : number)
| url_forecast (lat lon : number)
| url_airPollution (lat lon : number)
| url_reverseGeo (lat lon : number)
| url_geo (query : string).

(** The callbacks handed to [fetchData], each with what it captures. *)
Inductive continuation : Type :=
| K_currentWeather (lat lon : number)
| K_reverseGeo (card : nat)
| K_airPollution (cw : current_body)
| K_forecast
| K_geo.

(** Calls worth observing, in the order they happen. *)
Inductive called : Type :=
| Call_checkHash
| Call_route (route query : string)
| Call_error404
| Call_consoleError (message : jsval)
| Call_updateWeather (lat lon : number)
| Call_fetchData (e : endpoint)
| Call_getCurrentPosition
| Call_setTimeout (t : positive) (ms : Z)
| Call_clearTimeout (t : positive).

(** ** The store *)

(** Nodes of the weather view. *)
Record page : Type := {
  loading_display : string;
  container_overflowY : string;
  container_fade_in : bool;
  errorContent_display : string;
  currentLocationBtn_disabled : bool;
  currentWeatherSection : list current_card;
  highlightSection : list highlight_card;
  hourlySection : option hourly;
  forecastSection : option (list day_li)
}.

(** The search box: the field, the result panel (whose list is [None] when
    its markup is empty) and the module variable [searchTimeout]. *)
Record search : Type := {
  searchField_value : string;
  searchField_searching : bool;
  searchResult_active : bool;
  searchResult_searching : bool;
  searchResult_list : option (list search_item);
  searchTimeout : option positive
}.

(** The browser: the fragment, the queued hash-change events, the pending
    timeouts with their delay, the outstanding requests, the outstanding
    position requests, and the calls made so far. *)
Record browser : Type := {
  location_hash : string;
  hashchanges : nat;
  timers : gmap positive Z;
  next_timer : positive;
  requests : gmap nat (endpoint * continuation);
  next_request : nat;
  positions : nat;
  next_node : nat;
  log : list called
}.

Record state : Type := { pg : page; sr : search; br : browser }.

Definition initial_page : page :=
  {| loading_display := ""; container_overflowY := "";
     container_fade_in := false; errorContent_display := "";
     currentLocationBtn_disabled := false;
     currentWeatherSection := []; highlightSection := [];
     hourlySection := None; forecastSection := None |}.

Definition initial_search : search :=
  {| searchField_value := ""; searchField_searching := false;
     searchResult_active := false; searchResult_searching := false;
     searchResult_list := None; searchTimeout := None |}.

Definition initial_browser (hash : string) : browser :=
  {| location_hash := hash; hashchanges := 0; timers := ∅;
     next_timer := 1%positive; requests := ∅; next_request := 0;
     positions := 0; next_node := 0; log := [] |}.

(** The page as the scripts find it when they are first evaluated. *)
Definition initial (hash : string) : state :=
  {| pg := initial_page; sr := initial_search; br := initial_browser hash |}.

(** Field updates, one per field; [set_f v s] is the assignment [f = v]. *)

Definition on_page (f : page -> page) (s : state) : state :=
  {| pg := f (pg s); sr := sr s; br := br s |}.

Definition on_search (f : search -> search) (s : state) : state :=
  {| pg := pg s; sr := f (sr s); br := br s |}.

Definition on_browser (f : browser -> browser) (s : state) : state :=
  {| pg := pg s; sr := sr s; br := f (br s) |}.

Definition set_loading_display (v : string) : state -> state :=
  on_page (fun x =>
    {| loading_display := v;
       container_overflowY := container_overflowY x;
       container_fade_in := container_fade_in x;
       errorContent_display := errorContent_display x;
       currentLocationBtn_disabled := currentLocationBtn_disabled x;
       currentWeatherSection := currentWeatherSection x;
       highlightSection := highlightSection x;
       hourlySection := hourlySection x;
       forecastSection := forecastSection x |}).

Definition set_container_overflowY (v : string) : state -> state :=
  on_page (fun x =>
    {| loading_display := loading_display x;
       container_overflowY := v;
       container_fade_in := container_fade_in x;
       errorContent_display := errorContent_display x;
       currentLocationBtn_disabled := currentLocationBtn_disabled x;
       currentWeatherSection := currentWeatherSection x;
       highlightSection := highlightSection x;
       hourlySection := hourlySection x;
       forecastSection := forecastSection x |}).

Definition set_container_fade_in (v : bool) : state -> state :=
  on_page (fun x =>
    {| loading_display := loading_display x;
       container_overflowY := container_overflowY x;
       container_fade_in := v;
       errorContent_display := errorContent_display x;
       currentLocationBtn_disabled := currentLocationBtn_disabled x;
       currentWeatherSection := currentWeatherSection x;
       highlightSection := highlightSection x;
       hourlySection := hourlySection x;
       forecastSection := forecastSection x |}).

Definition set_errorContent_display (v : string) : state -> state :=
  on_page (fun x =>
    {| loading_display := loading_display x;
       container_overflowY := container_overflowY x;
       container_fade_in := container_fade_in x;
       errorContent_display := v;
       currentLocationBtn_disabled := currentLocationBtn_disabled x;
       currentWeatherSection := currentWeatherSection x;
       highlightSection := highlightSection x;
       hourlySection := hourlySection x;
       forecastSection := forecastSection x |}).

Definition set_currentLocationBtn_disabled (v : bool) : state -> state :=
  on_page (fun x =>
    {| loading_display := loading_display x;
       container_overflowY := container_overflowY x;
       container_fade_in := container_fade_in x;
       errorContent_display := errorContent_display x;
       currentLocationBtn_disabled := v;
       currentWeatherSection := currentWeatherSection x;
       highlightSection := highlightSection x;
       hourlySection := hourlySection x;
       forecastSection := forecastSection x |}).

Definition set_currentWeatherSection (v : list current_card) : state -> state :=
  on_page (fun x =>
    {| loading_display := loading_display x;
       container_overflowY := container_overflowY x;
       container_fade_in := container_fade_in x;
       errorContent_display := errorContent_display x;
       currentLocationBtn_disabled := currentLocationBtn_disabled x;
       currentWeatherSection := v;
       highlightSection := highlightSection x;
       hourlySection := hourlySection x;
       forecastSection := forecastSection x |}).

Definition set_highlightSection (v : list highlight_card) : state -> state :=
  on_page (fun x =>
    {| loading_display := loading_display x;
       container_overflowY := container_overflowY x;
       container_fade_in := container_fade_in x;
       errorContent_display := errorContent_display x;
       currentLocationBtn_disabled := currentLocationBtn_disabled x;
       currentWeatherSection := currentWeatherSection x;
       highlightSection := v;
       hourlySection := hourlySection x;
       forecastSection := forecastSection x |}).

Definition set_hourlySection (v : option hourly) : state -> state :=
  on_page (fun x =>
    {| loading_display := loading_display x;
       container_overflowY := container_overflowY x;
       container_fade_in := container_fade_in x;
       errorContent_display := errorContent_display x;
       currentLocationBtn_disabled := currentLocationBtn_disabled x;
       currentWeatherSection := currentWeatherSection x;
       highlightSection := highlightSection x;
       hourlySection := v;
       forecastSection := forecastSection x |}).

Definition set_forecastSection (v : option (list day_li)) : state -> state :=
  on_page (fun x =>
    {| loading_display := loading_display x;
       container_overflowY := container_overflowY x;
       container_fade_in := container_fade_in x;
       errorContent_display := errorContent_display x;
       currentLocationBtn_disabled := currentLocationBtn_disabled x;
       currentWeatherSection := currentWeatherSection x;
       highlightSection := highlightSection x;
       hourlySection := hourlySection x;
       forecastSection := v |}).

Definition set_searchField_value (v : string) : state -> state :=
  on_search (fun x =>
    {| searchField_value := v;
       searchField_searching := searchField_searching x;
       searchResult_active := searchResult_active x;
       searchResult_searching := searchResult_searching x;
       searchResult_list := searchResult_list x;
       searchTimeout := searchTimeout x |}).

Definition set_searchField_searching (v : bool) : state -> state :=
  on_search (fun x =>
    {| searchField_value := searchField_value x;
       searchField_searching := v;
       searchResult_active := searchResult_active x;
       searchResult_searching := searchResult_searching x;
       searchResult_list := searchResult_list x;
       searchTimeout := searchTimeout x |}).

Definition set_searchResult_active (v : bool) : state -> state :=
  on_search (fun x =>
    {| searchField_value := searchField_value x;
       searchField_searching := searchField_searching x;
       searchResult_active := v;
       searchResult_searching := searchResult_searching x;
       searchResult_list := searchResult_list x;
       searchTimeout := searchTimeout x |}).

Definition set_searchResult_searching (v : bool) : state -> state :=
  on_search (fun x =>
    {| searchField_value := searchField_value x;
       searchField_searching := searchField_searching x;
       searchResult_active := searchResult_active x;
       searchResult_searching := v;
       searchResult_list := searchResult_list x;
       searchTimeout := searchTimeout x |}).

Definition set_searchResult_list (v : option (list search_item)) : state -> state :=
  on_search (fun x =>
    {| searchField_value := searchField_value x;
       searchField_searching := searchField_searching x;
       searchResult_active := searchResult_active x;
       searchResult_searching := searchResult_searching x;
       searchResult_list := v;
       searchTimeout := searchTimeout x |}).

Definition set_searchTimeout (v : option positive) : state -> state :=
  on_search (fun x =>
    {| searchField_value := searchField_value x;
       searchField_searching := searchField_searching x;
       searchResult_active := searchResult_active x;
       searchResult_searching := searchResult_searching x;
       searchResult_list := searchResult_list x;
       searchTimeout := v |}).

Definition set_location_hash (v : string) : state -> state :=
  on_browser (fun x =>
    {| location_hash := v;
       hashchanges := hashchanges x;
       timers := timers x;
       next_timer := next_timer x;
       requests := requests x;
       next_request := next_request x;
       positions := positions x;
       next_node := next_node x;
       log := log x |}).

Definition set_hashchanges (v : nat) : state -> state :=
  on_browser (fun x =>
    {| location_hash := location_hash x;
       hashchanges := v;
       timers := timers x;
       next_timer := next_timer x;
       requests := requests x;
       next_request := next_request x;
       positions := positions x;
       next_node := next_node x;
       log := log x |}).

Definition set_timers (v : gmap positive Z) : state -> state :=
  on_browser (fun x =>
    {| location_hash := location_hash x;
       hashchanges := hashchanges x;
       timers := v;
       next_timer := next_timer x;
       requests := requests x;
       next_request := next_request x;
       positions := positions x;
       next_node := next_node x;
       log := log x |}).

Definition set_next_timer (v : positive) : state -> state :=
  on_browser (fun x =>
    {| location_hash := location_hash x;
       hashchanges := hashchanges x;
       timers := timers x;
       next_timer := v;
       requests := requests x;
       next_request := next_request x;
       positions := positions x;
       next_node := next_node x;
       log := log x |}).

Definition set_requests (v : gmap nat (endpoint * continuation)) : state -> state :=
  on_browser (fun x =>
    {| location_hash := location_hash x;
       hashchanges := hashchanges x;
       timers := timers x;
       next_timer := next_timer x;
       requests := v;
       next_request := next_request x;
       positions := positions x;
       next_node := next_node x;
       log := log x |}).

Definition set_next_request (v : nat) : state -> state :=
  on_browser (fun x =>
    {| location_hash := location_hash x;
       hashchanges := hashchanges x;
       timers := timers x;
       next_timer := next_timer x;
       requests := requests x;
       next_request := v;
       positions := positions x;
       next_node := next_node x;
       log := log x |}).

Definition set_positions (v : nat) : state -> state :=
  on_browser (fun x =>
    {| location_hash := location_hash x;
       hashchanges := hashchanges x;
       timers := timers x;
       next_timer := next_timer x;
       requests := requests x;
       next_request := next_request x;
       positions := v;
       next_node := next_node x;
       log := log x |}).

Definition set_next_node (v : nat) : state -> state :=
  on_browser (fun x =>
    {| location_hash := location_hash x;
       hashchanges := hashchanges x;
       timers := timers x;
       next_timer := next_timer x;
       requests := requests x;
       next_request := next_request x;
       positions := positions x;
       next_node := v;
       log := log x |}).

Definition set_log (v : list called) : state -> state :=
  on_browser (fun x =>
    {| location_hash := location_hash x;
       hashchanges := hashchanges x;
       timers := timers x;
       next_timer := next_timer x;
       requests := requests x;
       next_request := next_request x;
       positions := positions x;
       next_node := next_node x;
       log := v |}).

(** ** Listeners and callbacks

    A listener transforms the store and ends normally, or with an uncaught
    [TypeError]; what it wrote before the error stays written.  [Diverged]
    marks a loop cut short by its iteration budget. *)

Inductive outcome (A : Type) : Type :=
| Ok (a : A)
| Throw
| Diverged.

Arguments Ok {A} a.
Arguments Throw {A}.
Arguments Diverged {A}.

Definition M (A : Type) : Type := state -> outcome A * state.

Definition ret {A : Type} (a : A) : M A := fun s => (Ok a, s).

Definition throw {A : Type} : M A := fun s => (Throw, s).

Definition diverge {A : Type} : M A := fun s => (Diverged, s).

Definition bind {A B : Type} (m : M A) (k : A -> M B) : M B :=
  fun s =>
    match m s with
    | (Ok a, s') => k a s'
    | (Throw, s') => (Throw, s')
    | (Diverged, s') => (Diverged, s')
    end.

Definition get {A : Type} (f : state -> A) : M A := fun s => (Ok (f s), s).

Definition modify (f : state -> state) : M unit := fun s => (Ok tt, f s).

Notation "x <- m ;; k" := (bind m (fun x => k))
  (at level 100, m at next level, right associativity).
Notation "m ;; k" := (bind m (fun _ => k))
  (at level 100, right associativity).

(** The store a listener leaves, however it ended. *)
Definition run {A : Type} (m : M A) (s : state) : state := snd (m s).

Definition result {A : Type} (m : M A) (s : state) : outcome A := fst (m s).

(** [l[i]] for an index computed as a number: [undefined] out of range. *)
Definition js_index {A : Type} (l : list A) (i : Z) : option A :=
  if (i <? 0)%Z then None else l !! Z.to_nat i.

Definition js_length {A : Type} (l : list A) : Z := Z.of_nat (length l).

Definition call (c : called) : M unit :=
  modify (fun s => set_log (log (br s) ++ [c]) s).

(** Modelled from the spec: [fetchData] and the [url] builders of
    [assets/js/api.js] are not among the sources.  One asynchronous request
    per call; the continuation is invoked with the decoded payload when the
    request succeeds and never otherwise.  The request waits in [requests]
    under a fresh number until the browser answers it. *)
Definition fetchData (e : endpoint) (k : continuation) : M unit :=
  call (Call_fetchData e);;
  modify (fun s =>
            set_next_request (S (next_request (br s)))
              (set_requests (<[next_request (br s) := (e, k)]> (requests (br s))) s)).

(** [setTimeout(callback, ms)]: a fresh positive handle. *)
Definition setTimeout (ms : Z) : M positive :=
  t <- get (fun s => next_timer (br s));;
  modify (fun s => set_next_timer (Pos.succ t) (set_timers (<[t := ms]> (timers (br s))) s));;
  call (Call_setTimeout t ms);;
  ret t.

(** [clearTimeout(t)]: nothing happens for a handle that is not pending. *)
Definition clearTimeout (t : positive) : M unit :=
  call (Call_clearTimeout t);;
  modify (fun s => set_timers (delete t (timers (br s))) s).

(** [window.location.hash = v]: a hash-change event is queued when the
    fragment changes. *)
Definition assign_hash (v : string) : M unit :=
  modify (fun s =>
            if String.eqb (location_hash (br s)) v then s
            else set_hashchanges (S (hashchanges (br s))) (set_location_hash v s)).

Section Scripts.

Context {env : Env}.

(** *** app.js *)

Definition searchTimeoutDuration : Z := 500.

(** app.js:402 *)
Definition error404 : M unit :=
  call Call_error404;;
  modify (set_errorContent_display "flex").

(** app.js:99-124, up to the first request. *)
Definition updateWeather (lat lon : number) : M unit :=
  call (Call_updateWeather lat lon);;
  modify (set_loading_display "grid");;
  modify (set_container_overflowY "hidden");;
  modify (set_container_fade_in false);;
  modify (set_errorContent_display "none");;
  modify (set_currentWeatherSection []);;
  modify (set_highlightSection []);;
  modify (set_hourlySection None);;
  modify (set_forecastSection None);;
  hash <- get (fun s => location_hash (br s));;
  (if String.eqb hash "#/current-location"
   then modify (set_currentLocationBtn_disabled true)
   else modify (set_currentLocationBtn_disabled false));;
  fetchData (url_currentWeather lat lon) (K_currentWeather lat lon).

(** app.js:124-169 and the two requests of 174 and 269: the callback of
    the current-weather request. *)
Definition on_currentWeather (lat lon : number) (currentWeather : current_response)
  : M unit :=
  if truthy (cod currentWeather) && strict_neq_num (cod currentWeather) (JsNum.of_Z 200)
  then
    call (Call_consoleError (message currentWeather));;
    error404;;
    modify (set_loading_display "none")
  else
    match body currentWeather with
    | None => throw
    | Some b =>
        match cw_weather b with
        | [] => throw
        | w :: _ =>
            id <- get (fun s => next_node (br s));;
            modify (set_next_node (S id));;
            let card :=
              {| card_id := id; card_temp := cw_temp b; card_icon := icon w;
                 card_description := description w; card_dateUnix := cw_dt b;
                 card_timezone := cw_timezone b; card_location := None |} in
            fetchData (url_reverseGeo lat lon) (K_reverseGeo id);;
            modify (fun s =>
                      set_currentWeatherSection (currentWeatherSection (pg s) ++ [card]) s);;
            fetchData (url_airPollution lat lon) (K_airPollution b);;
            fetchData (url_forecast lat lon) K_forecast
        end
    end.

Definition label_card (id : nat) (p : place) (c : current_card) : current_card :=
  if Nat.eqb (card_id c) id then
    {| card_id := card_id c; card_temp := card_temp c; card_icon := card_icon c;
       card_description := card_description c; card_dateUnix := card_dateUnix c;
       card_timezone := card_timezone c;
       card_location := Some (place_name p, place_country p) |}
  else c.

(** app.js:165-167: writes the label of the card it captured, which shows
    while that card is still in the section. *)
Definition on_reverseGeo (card : nat) (l : list place) : M unit :=
  match l with
  | [] => throw
  | p :: _ =>
      modify (fun s =>
                set_currentWeatherSection
                  (map (label_card card p) (currentWeatherSection (pg s))) s)
  end.

(** app.js:174-264 *)
Definition on_airPollution (cw : current_body) (l : list air_point) : M unit :=
  match l with
  | [] => throw
  | a :: _ =>
      match aqiText (aqi a) with
      | None => throw
      | Some lab =>
          let card :=
            {| hl_air := a; hl_label := lab; hl_sunrise := cw_sunrise cw;
               hl_sunset := cw_sunset cw; hl_timezone := cw_timezone cw;
               hl_humidity := cw_humidity cw; hl_pressure := cw_pressure cw;
               hl_visibility := cw_visibility cw;
               hl_feels_like := cw_feels_like cw |} in
          modify (fun s => set_highlightSection (highlightSection (pg s) ++ [card]) s)
      end
  end.

(** [hourlySection.querySelector(..).appendChild(..)] for the two slider
    lists; the query finds nothing when the section's markup is empty. *)
Definition append_hour (t : temp_li) (w : wind_li) : M unit :=
  h <- get (fun s => hourlySection (pg s));;
  match h with
  | None => throw
  | Some x =>
      modify (set_hourlySection
                (Some {| data_temp := data_temp x ++ [t]; data_wind := data_wind x |}));;
      h' <- get (fun s => hourlySection (pg s));;
      match h' with
      | None => throw
      | Some y =>
          modify (set_hourlySection
                    (Some {| data_temp := data_temp y; data_wind := data_wind y ++ [w] |}))
      end
  end.

Definition append_day (li : day_li) : M unit :=
  f <- get (fun s => forecastSection (pg s));;
  match f with
  | None => throw
  | Some x => modify (set_forecastSection (Some (x ++ [li])))
  end.

(** app.js:298-326: [for (let i = 0; i < 3 && hourCount < 24; i++)]. *)
Fixpoint hourly_repeat (budget : nat) (timezone : Z) (data : forecast_point)
    (w : weather_desc) (i hourCount : Z) : M Z :=
  if ((i <? 3) && (hourCount <? 24))%Z then
    match budget with
    | O => diverge
    | S budget' =>
        let adjustedTimeUnix := (dt data + i * 3600)%Z in
        append_hour
          {| t_time := adjustedTimeUnix; t_timezone := timezone; t_icon := icon w;
             t_description := description w; t_temp := main_temp data |}
          {| w_time := adjustedTimeUnix; w_timezone := timezone;
             w_direction := wind_deg data; w_speed := wind_speed data |};;
        hourly_repeat budget' timezone data w (i + 1)%Z (hourCount + 1)%Z
    end
  else ret hourCount.

(** app.js:284-327: [for (const [index, data] of forecastList.entries())]. *)
Fixpoint hourly_loop (timezone : Z) (forecastList : list forecast_point)
    (hourCount : Z) : M unit :=
  match forecastList with
  | [] => ret tt
  | data :: rest =>
      if (24 <=? hourCount)%Z then ret tt
      else
        match weather data with
        | [] => throw
        | w :: _ =>
            hourCount' <- hourly_repeat 3 timezone data w 0 hourCount;;
            hourly_loop timezone rest hourCount'
        end
  end.

(** app.js:339-364:
    [for (let i = 7, len = ..; i < len && daysProcessed < 7; i += 8)]. *)
Fixpoint days_loop (budget : nat) (forecastList : list forecast_point)
    (i daysProcessed : Z) : M Z :=
  if ((i <? js_length forecastList) && (daysProcessed <? 7))%Z then
    match budget with
    | O => diverge
    | S budget' =>
        match js_index forecastList i with
        | None => throw
        | Some p =>
            match weather p with
            | [] => throw
            | w :: _ =>
                append_day
                  {| d_icon := icon w; d_description := description w;
                     d_temp_max := main_temp_max p; d_date := DateOf (dt_txt p) |};;
                days_loop budget' forecastList (i + 8)%Z (daysProcessed + 1)%Z
            end
        end
    end
  else ret daysProcessed.

(** app.js:366-393: [while (daysProcessed < 7)]. *)
Fixpoint pad_loop (budget : nat) (forecastList : list forecast_point)
    (daysProcessed : Z) : M unit :=
  if (daysProcessed <? 7)%Z then
    match budget with
    | O => diverge
    | S budget' =>
        match js_index forecastList (js_length forecastList - 1)%Z with
        | None => throw
        | Some lastData =>
            match weather lastData with
            | [] => throw
            | w :: _ =>
                append_day
                  {| d_icon := icon w; d_description := description w;
                     d_temp_max := main_temp_max lastData;
                     d_date := DateShifted (dt_txt lastData) (daysProcessed - 4)%Z |};;
                pad_loop budget' forecastList (daysProcessed + 1)%Z
            end
        end
    end
  else ret tt.

(** app.js:269-398: the callback of the forecast request. *)
Definition on_forecast (forecast : forecast_response) : M unit :=
  let forecastList := fc_list forecast in
  let timezone := city_timezone forecast in
  modify (set_hourlySection (Some {| data_temp := []; data_wind := [] |}));;
  hourly_loop timezone forecastList 0;;
  modify (set_forecastSection (Some []));;
  daysProcessed <- days_loop 7 forecastList 7 0;;
  pad_loop 7 forecastList daysProcessed;;
  modify (set_loading_display "none");;
  modify (set_container_overflowY "overlay");;
  modify (set_container_fade_in true).

Definition render_location (l : location) : search_item :=
  {| si_name := loc_name l;
     si_state := match loc_state l with
                 | Some st => if JsString.truthy st then st else ""
                 | None => ""
                 end;
     si_country := loc_country l; si_lat := loc_lat l; si_lon := loc_lon l |}.

(** app.js:63-78 *)
Fixpoint search_rows (locations : list location) : M unit :=
  match locations with
  | [] => ret tt
  | l :: rest =>
      rows <- get (fun s => searchResult_list (sr s));;
      match rows with
      | None => throw
      | Some x =>
          modify (set_searchResult_list (Some (x ++ [render_location l])));;
          search_rows rest
      end
  end.

(** app.js:54-84: the callback of the geocode request.  The click
    listeners it puts on the rows only close the search view. *)
Definition on_geo (locations : list location) : M unit :=
  modify (set_searchField_searching false);;
  modify (set_searchResult_active true);;
  modify (set_searchResult_list (Some []));;
  search_rows locations.

(** app.js:53-85: the function handed to [setTimeout]. *)
Definition on_timeout : M unit :=
  v <- get (fun s => searchField_value (sr s));;
  fetchData (url_geo v) K_geo.

(** app.js:41-87: the input listener of the search field. *)
Definition on_input : M unit :=
  t <- get (fun s => searchTimeout (sr s));;
  match t with
  | Some id => clearTimeout id
  | None => ret tt
  end;;
  v <- get (fun s => searchField_value (sr s));;
  (if negb (JsString.truthy v) then
     modify (set_searchResult_active false);;
     modify (set_searchResult_list None);;
     modify (set_searchResult_searching false)
   else modify (set_searchField_searching true));;
  v' <- get (fun s => searchField_value (sr s));;
  if JsString.truthy v' then
    id <- setTimeout searchTimeoutDuration;;
    modify (set_searchTimeout (Some id))
  else ret tt.

End Scripts.

Section Router.

Context {env : Env}.

(** *** route.js *)

Definition defaultLocation : string := "#/weather?lat=28.6139&lon=77.209".

(** route.js:14-24: the handler asks for the position and returns. *)
Definition currentLocation : M unit :=
  call Call_getCurrentPosition;;
  modify (fun s => set_positions (S (positions (br s))) s).

(** route.js:16-19: the success callback, with [res.coords]. *)
Definition on_position (latitude longitude : number) : M unit :=
  updateWeather latitude longitude.

(** route.js:20-22: the error callback. *)
Definition on_position_error : M unit :=
  assign_hash defaultLocation.

(** [!param] for the result of [Array.prototype.find]. *)
Definition missing (param : option string) : bool :=
  match param with
  | None => true
  | Some p => negb (JsString.truthy p)
  end.

(** [parseFloat(param.split("=")[1])]; an absent piece is [undefined],
    which [parseFloat] reads as the text "undefined". *)
Definition param_number (param : string) : number :=
  parseFloat (default "undefined" (JsString.split "=" param !! 1)).

(** route.js:29-44 *)
Definition searchedLocation (query : string) : M unit :=
  let params := JsString.split "&" query in
  let latParam := find (JsString.startsWith "lat=") params in
  let lonParam := find (JsString.startsWith "lon=") params in
  if missing latParam || missing lonParam then error404
  else
    match latParam, lonParam with
    | Some latP, Some lonP =>
        let lat := param_number latP in
        let lon := param_number lonP in
        if JsNum.isNaN lat || JsNum.isNaN lon
           || JsNum.lt lat (JsNum.of_Z (-90)) || JsNum.gt lat (JsNum.of_Z 90)
           || JsNum.lt lon (JsNum.of_Z (-180)) || JsNum.gt lon (JsNum.of_Z 180)
        then error404
        else updateWeather lat lon
    | _, _ => throw
    end.

Inductive handler : Type :=
| H_currentLocation
| H_searchedLocation.

(** route.js:46-49 *)
Definition routes : gmap string handler :=
  <["/weather" := H_searchedLocation]>
    (<["/current-location" := H_currentLocation]> ∅).

Definition invoke (h : handler) (query : string) : M unit :=
  match h with
  | H_currentLocation => currentLocation
  | H_searchedLocation => searchedLocation query
  end.

(** route.js:51-55 *)
Definition checkHash : M unit :=
  call Call_checkHash;;
  hash <- get (fun s => location_hash (br s));;
  let requestURL := JsString.slice1 hash in
  let parts :=
    if JsString.includes "?" requestURL
    then JsString.split "?" requestURL
    else [requestURL; ""] in
  match parts with
  | route :: query :: _ =>
      match routes !! route with
      | Some h =>
          call (Call_route route query);;
          invoke h query
      | None => error404
      end
  | _ => throw
  end.

(** route.js:59-65: the load listener. *)
Definition on_load : M unit :=
  hash <- get (fun s => location_hash (br s));;
  if negb (JsString.truthy hash) then assign_hash "#/current-location"
  else checkHash.

(** *** The event loop *)

(** What the browser can deliver to the page. *)
Inductive event : Type :=
| E_load
| E_hashchange
| E_navigate (hash : string)
| E_input (value : string)
| E_timeout (t : positive)
| E_position (coords : option (number * number))
| E_response (id : nat) (r : response)
| E_failure (id : nat).

(** A callback applied to the payload of its request; a payload of
    another shape fails at the first destructuring. *)
Definition resume (k : continuation) (r : response) : M unit :=
  match k, r with
  | K_currentWeather lat lon, R_currentWeather cw => on_currentWeather lat lon cw
  | K_reverseGeo card, R_reverseGeo l => on_reverseGeo card l
  | K_airPollution cw, R_airPollution l => on_airPollution cw l
  | K_forecast, R_forecast f => on_forecast f
  | K_geo, R_geo l => on_geo l
  | _, _ => throw
  end.

(** One turn of the loop; [None] when the event cannot occur in [s]. *)
Definition step (e : event) (s : state) : option state :=
  match e with
  | E_load => Some (run on_load s)
  | E_hashchange =>
      match hashchanges (br s) with
      | O => None
      | S n => Some (run checkHash (set_hashchanges n s))
      end
  | E_navigate h => Some (run (assign_hash h) s)
  | E_input v => Some (run on_input (set_searchField_value v s))
  | E_timeout t =>
      match timers (br s) !! t with
      | None => None
      | Some _ => Some (run on_timeout (set_timers (delete t (timers (br s))) s))
      end
  | E_position coords =>
      match positions (br s) with
      | O => None
      | S n =>
          Some (run match coords with
                    | Some (lat, lon) => on_position lat lon
                    | None => on_position_error
                    end (set_positions n s))
      end
  | E_response id r =>
      match requests (br s) !! id with
      | None => None
      | Some (_, k) => Some (run (resume k r) (set_requests (delete id (requests (br s))) s))
      end
  | E_failure id =>
      match requests (br s) !! id with
      | None => None
      | Some _ => Some (set_requests (delete id (requests (br s))) s)
      end
  end.

(** A run of the loop over a list of events. *)
Fixpoint steps (es : list event) (s : state) : option state :=
  match es with
  | [] => Some s
  | e :: es' =>
      match step e s with
      | Some s' => steps es' s'
      | None => None
      end
  end.

(** The stores the page can be in: the scripts are evaluated on a fresh
    page, then the loop runs. *)
Inductive reachable : state -> Prop :=
| reachable_initial (hash : string) : reachable (initial hash)
| reachable_step (e : event) (s s' : state) :
    reachable s -> step e s = Some s' -> reachable s'.

End Router.

(** ** Vocabulary of the statements *)

(** [x] is a finite number between [lo] and [hi], bounds included. *)
Definition finite_within (lo hi : Z) (x : number) : Prop :=
  exists q : Q, x = Fin q /\ (inject_Z lo <= q)%Q /\ (q <= inject_Z hi)%Q.

(** The route name of a fragment: what follows the leading [#], up to the
    first [?]. *)
Definition route_name (hash : string) : string :=
  JsString.before "?" (JsString.slice1 hash).

(** The query of a fragment: what lies between the first [?] and the next
    one. *)
Definition route_query (hash : string) : string :=
  JsString.before "?" (JsString.after "?" (JsString.slice1 hash)).


Definition is_fetch (c : called) : bool :=
  match c with
  | Call_fetchData _ => true
  | _ => false
  end.

(** The calls made between two stores. *)
Definition calls_between (s s' : state) : list called :=
  drop (length (log (br s))) (log (br s')).

(** The three visual states, each with the write that shows it. *)
Inductive visual : Type :=
| Loading
| Content
| Error.

Definition active (v : visual) (s : state) : Prop :=
  match v with
  | Loading => loading_display (pg s) = "grid"
  | Content => container_fade_in (pg s) = true
  | Error => errorContent_display (pg s) = "flex"
  end.

(** [v] is active and the other two are not. *)
Definition only (v : visual) (s : state) : Prop :=
  forall v', active v' s <-> v' = v.

(** The embedded status is the number 200. *)
Definition is_200 (v : jsval) : Prop :=
  exists q : Q, v = JNum (Fin q) /\ (q == 200)%Q.

(** A forecast point as the API documents it: at least one weather
    descriptor. *)
Definition shaped (p : forecast_point) : Prop := weather p <> [].

(** Successive points are three hours apart. *)
Definition spaced (l : list forecast_point) : Prop :=
  forall (i : nat) (a b : forecast_point),
    l !! i = Some a -> l !! S i = Some b -> dt b = (dt a + 10800)%Z.

Definition hd_weather (p : forecast_point) : weather_desc :=
  match weather p with
  | w :: _ => w
  | [] => {| icon := ""; description := "" |}
  end.

(** The slider entry pair that shows point [p] at [i] simulated hours
    past its own time. *)
Definition hour_row (timezone : Z) (p : forecast_point) (i : Z) : temp_li * wind_li :=
  ({| t_time := dt p + i * 3600; t_timezone := timezone;
      t_icon := icon (hd_weather p); t_description := description (hd_weather p);
      t_temp := main_temp p |},
   {| w_time := dt p + i * 3600; w_timezone := timezone;
      w_direction := wind_deg p; w_speed := wind_speed p |}).

(** Each of the first eight points, three times. *)
Definition hour_rows (timezone : Z) (l : list forecast_point) : list (temp_li * wind_li) :=
  flat_map (fun p => map (hour_row timezone p) [0; 1; 2]%Z) (take 8 l).

Definition add_rows (h : hourly) (rows : list (temp_li * wind_li)) : hourly :=
  {| data_temp := data_temp h ++ map fst rows;
     data_wind := data_wind h ++ map snd rows |}.

Definition no_rows : hourly := {| data_temp := []; data_wind := [] |}.

(** Up to [n] elements of [l], from index [i] on in steps of eight. *)
Fixpoint picks {A : Type} (n i : nat) (l : list A) : list A :=
  match n with
  | O => []
  | S n' =>
      match l !! i with
      | Some p => p :: picks n' (i + 8) l
      | None => []
      end
  end.

Definition real_day (p : forecast_point) : day_li :=
  {| d_icon := icon (hd_weather p); d_description := description (hd_weather p);
     d_temp_max := main_temp_max p; d_date := DateOf (dt_txt p) |}.

(** The row padded in when [daysProcessed] rows are there already. *)
Definition pad_day (p : forecast_point) (daysProcessed : Z) : day_li :=
  {| d_icon := icon (hd_weather p); d_description := description (hd_weather p);
     d_temp_max := main_temp_max p;
     d_date := DateShifted (dt_txt p) (daysProcessed - 4) |}.

(** The seven rows of the forecast card: the points at 7, 15, 23, ...,
    then the last point of the list, once for each row still missing. *)
Definition seven_days (l : list forecast_point) : list day_li :=
  let real := picks 7 7 l in
  map real_day real
  ++ match last l with
     | Some p => map (pad_day p) (seqZ (js_length real) (7 - js_length real))
     | None => []
     end.

(** The store the forecast callback leaves when it ends normally. *)
Definition rendered (f : forecast_response) (s : state) : state :=
  set_container_fade_in true
    (set_container_overflowY "overlay"
       (set_loading_display "none"
          (set_forecastSection (Some (seven_days (fc_list f)))
             (set_hourlySection
                (Some (add_rows no_rows (hour_rows (city_timezone f) (fc_list f)))) s)))).

(** Every pending timeout is the one [searchTimeout] holds, and handles
    not yet given out are not pending. *)
Definition debounce_inv (s : state) : Prop :=
  forall (t : positive) (ms : Z),
    timers (br s) !! t = Some ms ->
    searchTimeout (sr s) = Some t /\ (t < next_timer (br s))%positive.

(** What the debounce invariant reads of a store. *)
Definition debounce_view (s : state) : gmap positive Z * positive * option positive :=
  (timers (br s), next_timer (br s), searchTimeout (sr s)).

(** A listener that touches neither the timeouts nor [searchTimeout]. *)
Definition keeps {A : Type} (m : M A) : Prop :=
  forall s, debounce_view (snd (m s)) = debounce_view s.

(** The calls the input listener makes before scheduling: the
    cancellation of the handle it holds, if it holds one. *)
Definition cancellation (s : state) : list called :=
  match searchTimeout (sr s) with
  | Some t => [Call_clearTimeout t]
  | None => []
  end.

(** A listener that never runs out of its iteration budget. *)
Definition halts {A : Type} (m : M A) : Prop :=
  forall s, result m s <> Diverged.

(** A property of the store that a listener cannot break, however it
    ends. *)
Definition stable {A : Type} (P : state -> Prop) (m : M A) : Prop :=
  forall s, P s -> P (snd (m s)).

(** The embedded status lets the answer through the guard of the
    current-weather callback: it is falsy, or it is the number 200. *)
Definition passes (v : jsval) : Prop := truthy v = false \/ is_200 v.

(** The card the current-weather callback builds. *)
Definition now_card (id : nat) (b : current_body) (w : weather_desc) : current_card :=
  {| card_id := id; card_temp := cw_temp b; card_icon := icon w;
     card_description := description w; card_dateUnix := cw_dt b;
     card_timezone := cw_timezone b; card_location := None |}.

(** The card the air-pollution callback builds. *)
Definition highlights (cw : current_body) (a : air_point) (lab : aqi_label)
  : highlight_card :=
  {| hl_air := a; hl_label := lab; hl_sunrise := cw_sunrise cw;
     hl_sunset := cw_sunset cw; hl_timezone := cw_timezone cw;
     hl_humidity := cw_humidity cw; hl_pressure := cw_pressure cw;
     hl_visibility := cw_visibility cw; hl_feels_like := cw_feels_like cw |}.

(** What the renderer shows apart from the two forecast sections. *)
Definition frame_of (s : state)
  : string * bool * list current_card * list highlight_card :=
  (errorContent_display (pg s), currentLocationBtn_disabled (pg s),
   currentWeatherSection (pg s), highlightSection (pg s)).

(** Events of the search box: typing, the expiry of a timeout, and the
    answer to a geocode request. *)
Definition search_event (s : state) (e : event) : Prop :=
  match e with
  | E_input _ | E_timeout _ => True
  | E_response id _ => exists ep, requests (br s) !! id = Some (ep, K_geo)
  | _ => False
  end.

(** Events of the weather view: everything else. *)
Definition weather_event (s : state) (e : event) : Prop :=
  match e with
  | E_input _ | E_timeout _ => False
  | E_response id _ =>
      exists ep k, requests (br s) !! id = Some (ep, k) /\ k <> K_geo
  | _ => True
  end.

(** *** Sample payloads *)

Definition clear_sky : weather_desc := {| icon := "01d"; description := "clear sky" |}.

Definition sample_point (t : Z) : forecast_point :=
  {| dt := t; main_temp := Fin 20; main_temp_max := Fin 25; weather := [clear_sky];
     wind_deg := Fin 90; wind_speed := Fin 3; dt_txt := "2024-01-01 00:00:00" |}.

Definition sample_body : current_body :=
  {| cw_weather := [clear_sky]; cw_dt := 1704067200; cw_sunrise := 1704090000;
     cw_sunset := 1704126000; cw_temp := Fin 20; cw_feels_like := Fin 19;
     cw_pressure := Fin 1013; cw_humidity := Fin 40; cw_visibility := Fin 10000;
     cw_timezone := 19800 |}.

Definition sample_current (c : jsval) : current_response :=
  {| cod := c; message := JUndefined; body := Some sample_body |}.

Definition sample_forecast (l : list forecast_point) : forecast_response :=
  {| fc_list := l; city_timezone := 19800 |}.

(** Three points, three hours apart. *)
Definition three_points : list forecast_point :=
  map sample_point [1704067200; 1704078000; 1704088800]%Z.



Definition sample_air (level : Z) : air_point :=
  {| aqi := level; no2 := Fin 10; o3 := Fin 60; so2 := Fin 5; pm2_5 := Fin 35 |}.

(** A store with one outstanding forecast request and nothing else. *)
Definition awaiting_forecast : state :=
  run (fetchData (url_forecast (Fin 0) (Fin 0)) K_forecast) (initial "").

(** ** Basic facts *)

Lemma Qlt_bool_iff (x y : Q) : Qlt_bool x y = true <-> (x < y)%Q.
Proof.
  unfold Qlt_bool. rewrite negb_true_iff. split.
  - intros H. apply Qnot_le_lt. intros Hle.
    apply Qle_bool_iff in Hle. congruence.
  - intros H. destruct (Qle_bool y x) eqn:E; [|reflexivity].
    apply Qle_bool_iff in E. exfalso. exact (Qlt_not_le _ _ H E).
Qed.

Lemma outside_range (lo hi : Z) (x : number) :
  ~ finite_within lo hi x ->
  JsNum.isNaN x || JsNum.lt x (JsNum.of_Z lo) || JsNum.gt x (JsNum.of_Z hi) = true.
Proof.
  intros Hout. destruct x as [| | |q]; try reflexivity.
  cbn. destruct (Qlt_bool q (inject_Z lo)) eqn:E1; [reflexivity|].
  destruct (Qlt_bool (inject_Z hi) q) eqn:E2; [reflexivity|].
  exfalso. apply Hout. exists q. split; [reflexivity|]. split.
  - apply Qnot_lt_le. intros H. apply Qlt_bool_iff in H. congruence.
  - apply Qnot_lt_le. intros H. apply Qlt_bool_iff in H. congruence.
Qed.

Lemma inside_range (lo hi : Z) (x : number) :
  finite_within lo hi x ->
  JsNum.isNaN x || JsNum.lt x (JsNum.of_Z lo) || JsNum.gt x (JsNum.of_Z hi) = false.
Proof.
  intros (q & -> & Hlo & Hhi). cbn.
  destruct (Qlt_bool q (inject_Z lo)) eqn:E1.
  - apply Qlt_bool_iff in E1. exfalso. exact (Qlt_not_le _ _ E1 Hlo).
  - destruct (Qlt_bool (inject_Z hi) q) eqn:E2; [|reflexivity].
    apply Qlt_bool_iff in E2. exfalso. exact (Qlt_not_le _ _ E2 Hhi).
Qed.

Lemma find_absent {A : Type} (f : A -> bool) (l : list A) :
  (forall x, x ∈ l -> f x = false) -> find f l = None.
Proof.
  induction l as [|a l IH]; intros H; [reflexivity|].
  cbn. rewrite (H a) by apply list_elem_of_here.
  apply IH. intros x Hx. apply H. by apply list_elem_of_further.
Qed.

Lemma find_present {A : Type} (f : A -> bool) (l : list A) (x : A) :
  find f l = Some x -> x ∈ l /\ f x = true.
Proof.
  intros H. apply find_some in H as [Hin Hf].
  split; [by apply list_elem_of_In | exact Hf].
Qed.

Lemma startsWith_truthy (k p : string) :
  JsString.truthy k = true -> JsString.startsWith k p = true ->
  JsString.truthy p = true.
Proof.
  destruct k as [|a k]; [discriminate|]. destruct p; [discriminate|reflexivity].
Qed.

Lemma split_before (c : ascii) (s : string) :
  JsString.split c s !! 0 = Some (JsString.before c s).
Proof.
  induction s as [|a s IH]; [reflexivity|].
  cbn. destruct (Ascii.eqb a c); [reflexivity|].
  destruct (JsString.split c s) as [|h t]; [discriminate|].
  cbn in IH. injection IH as <-. reflexivity.
Qed.

Lemma split_after (c : ascii) (s : string) :
  JsString.includes c s = true ->
  JsString.split c s !! 1 = Some (JsString.before c (JsString.after c s)).
Proof.
  induction s as [|a s IH]; [discriminate|].
  cbn. destruct (Ascii.eqb a c).
  - intros _. apply (split_before c s).
  - intros H. specialize (IH H).
    destruct (JsString.split c s) as [|h t]; [discriminate|]. exact IH.
Qed.

Lemma before_no_sep (c : ascii) (s : string) :
  JsString.includes c s = false -> JsString.before c s = s.
Proof.
  induction s as [|a s IH]; [reflexivity|].
  cbn. destruct (Ascii.eqb a c); [discriminate|].
  intros H. by rewrite IH.
Qed.

(** The log after the router's and the renderer's entry points. *)

Section RouterFacts.

Context {env : Env}.


Lemma updateWeather_log (lat lon : number) (s : state) :
  log (br (run (updateWeather lat lon) s))
  = log (br s) ++ [Call_updateWeather lat lon; Call_fetchData (url_currentWeather lat lon)].
Proof.
  unfold updateWeather, run, bind, call, modify, get, fetchData. cbn.
  destruct (String.eqb (location_hash (br s)) "#/current-location"); cbn;
    by rewrite <- app_assoc.
Qed.


End RouterFacts.

(** ** The router *)

Section RouterTheorems.

Context {env : Env}.

Lemma calls_between_app (s s' : state) (cs : list called) :
  log (br s') = log (br s) ++ cs -> calls_between s s' = cs.
Proof. unfold calls_between. intros ->. apply drop_app_length. Qed.

(** C1.  A query with no [lat=] piece or no [lon=] piece, or whose
    latitude is not a finite number within [-90, 90], or whose longitude
    is not a finite number within [-180, 180], makes [searchedLocation]
    do exactly what [error404] does: the one call it makes is
    [error404], so [updateWeather] is not called and no request is
    issued. *)
Theorem searchedLocation_invalid_query (query : string) (s : state) :
  let params := JsString.split "&" query in
  (forall p, p ∈ params -> JsString.startsWith "lat=" p = false)
  \/ (forall p, p ∈ params -> JsString.startsWith "lon=" p = false)
  \/ (exists p, find (JsString.startsWith "lat=") params = Some p
                /\ ~ finite_within (-90) 90 (param_number p))
  \/ (exists p, find (JsString.startsWith "lon=") params = Some p
                /\ ~ finite_within (-180) 180 (param_number p)) ->
  searchedLocation query s = error404 s
  /\ calls_between s (run (searchedLocation query) s) = [Call_error404]
  /\ requests (br (run (searchedLocation query) s)) = requests (br s).
Proof.
  intros params H.
  assert (Hrun : searchedLocation query s = error404 s).
  { unfold searchedLocation. fold params.
    destruct (find (JsString.startsWith "lat=") params) as [a|] eqn:Ea;
      [|reflexivity].
    destruct (find (JsString.startsWith "lon=") params) as [b|] eqn:Eb;
      [|cbn; by rewrite orb_true_r].
    destruct (find_present _ _ _ Ea) as [Ha1 Ha2].
    destruct (find_present _ _ _ Eb) as [Hb1 Hb2].
    cbn [missing].
    rewrite (startsWith_truthy "lat=" a eq_refl Ha2).
    rewrite (startsWith_truthy "lon=" b eq_refl Hb2). cbn [negb orb].
    destruct H as [H | [H | [(p & Hp & Hout) | (p & Hp & Hout)]]].
    - rewrite (H a Ha1) in Ha2. discriminate.
    - rewrite (H b Hb1) in Hb2. discriminate.
    - injection Hp as <-. apply outside_range in Hout.
      destruct (JsNum.isNaN (param_number a)), (JsNum.isNaN (param_number b)),
        (JsNum.lt (param_number a) (JsNum.of_Z (-90))),
        (JsNum.gt (param_number a) (JsNum.of_Z 90));
        cbn in Hout; try discriminate; reflexivity.
    - injection Hp as <-. apply outside_range in Hout.
      destruct (JsNum.isNaN (param_number a)), (JsNum.isNaN (param_number b)),
        (JsNum.lt (param_number a) (JsNum.of_Z (-90))),
        (JsNum.gt (param_number a) (JsNum.of_Z 90)),
        (JsNum.lt (param_number b) (JsNum.of_Z (-180))),
        (JsNum.gt (param_number b) (JsNum.of_Z 180));
        cbn in Hout; try discriminate; reflexivity. }
  split; [exact Hrun|]. unfold run. rewrite Hrun. split.
  - apply calls_between_app. reflexivity.
  - reflexivity.
Qed.

(** The complement: a query with both pieces in range reaches
    [updateWeather] with the parsed pair. *)
Lemma searchedLocation_valid_query (query : string) (s : state) (a b : string) :
  let params := JsString.split "&" query in
  find (JsString.startsWith "lat=") params = Some a ->
  find (JsString.startsWith "lon=") params = Some b ->
  finite_within (-90) 90 (param_number a) ->
  finite_within (-180) 180 (param_number b) ->
  searchedLocation query s = updateWeather (param_number a) (param_number b) s.
Proof.
  intros params Ea Eb Ha Hb. unfold searchedLocation. fold params.
  rewrite Ea, Eb.
  destruct (find_present _ _ _ Ea) as [_ Ha2].
  destruct (find_present _ _ _ Eb) as [_ Hb2].
  cbn [missing].
  rewrite (startsWith_truthy "lat=" a eq_refl Ha2).
  rewrite (startsWith_truthy "lon=" b eq_refl Hb2). cbn [negb orb].
  apply inside_range in Ha, Hb.
  destruct (JsNum.isNaN (param_number a)), (JsNum.isNaN (param_number b)),
    (JsNum.lt (param_number a) (JsNum.of_Z (-90))),
    (JsNum.gt (param_number a) (JsNum.of_Z 90)),
    (JsNum.lt (param_number b) (JsNum.of_Z (-180))),
    (JsNum.gt (param_number b) (JsNum.of_Z 180));
    cbn in Ha, Hb; try discriminate; reflexivity.
Qed.

(** What [checkHash] takes apart: the route is the text before the first
    [?], the query the text up to the next one. *)
Lemma checkHash_unfold (s : state) :
  checkHash s
  = (call Call_checkHash;;
     match routes !! route_name (location_hash (br s)) with
     | Some h =>
         call (Call_route (route_name (location_hash (br s)))
                 (route_query (location_hash (br s))));;
         invoke h (route_query (location_hash (br s)))
     | None => error404
     end) s.
Proof.
  unfold checkHash, route_name, route_query, bind, call, modify, get. cbn.
  set (u := JsString.slice1 (location_hash (br s))).
  destruct (JsString.includes "?" u) eqn:Hinc.
  - pose proof (split_before "?" u) as H0.
    pose proof (split_after "?" u Hinc) as H1.
    destruct (JsString.split "?" u) as [|r [|q t]]; try discriminate.
    cbn in H0, H1. injection H0 as <-. injection H1 as <-. reflexivity.
  - rewrite (before_no_sep _ _ Hinc).
    assert (JsString.after "?" u = "") as ->; [|reflexivity].
    clear -Hinc. induction u as [|a u IH]; [reflexivity|].
    cbn in Hinc |- *. destruct (Ascii.eqb a "?"); [discriminate|]. by apply IH.
Qed.

Lemma routes_lookup (r : string) :
  routes !! r
  = if String.eqb r "/weather" then Some H_searchedLocation
    else if String.eqb r "/current-location" then Some H_currentLocation
    else None.
Proof.
  unfold routes.
  destruct (String.eqb_spec r "/weather") as [->|H1]; [by rewrite lookup_insert_eq|].
  rewrite lookup_insert_ne by congruence.
  destruct (String.eqb_spec r "/current-location") as [->|H2];
    [by rewrite lookup_insert_eq|].
  rewrite lookup_insert_ne by congruence. apply lookup_empty.
Qed.



Lemma checkHash_current_location (s : state) :
  location_hash (br s) = "#/current-location" ->
  run checkHash s
  = run currentLocation
      (run (call (Call_route "/current-location" "")) (run (call Call_checkHash) s)).
Proof.
  intros Hh. unfold run at 1. rewrite checkHash_unfold, Hh.
  change (route_name "#/current-location") with "/current-location".
  change (route_query "#/current-location") with "".
  rewrite routes_lookup. reflexivity.
Qed.

(** C7.  The load listener, on an empty fragment, assigns
    ["#/current-location"] and makes no call of its own: a hash-change
    event is queued, and delivering it runs [checkHash], which invokes
    the current-location handler.  On any other fragment it is
    [checkHash] on that fragment. *)
Theorem on_load_default_route (s : state) :
  (location_hash (br s) = "" ->
   let s' := run on_load s in
   location_hash (br s') = "#/current-location"
   /\ hashchanges (br s') = S (hashchanges (br s))
   /\ calls_between s s' = []
   /\ exists s'',
       step E_hashchange s' = Some s''
       /\ calls_between s s''
          = [Call_checkHash; Call_route "/current-location" ""; Call_getCurrentPosition])
  /\ (location_hash (br s) <> "" -> on_load s = checkHash s).
Proof.
  split.
  - intros Hh s'.
    assert (Hs' : s' = set_hashchanges (S (hashchanges (br s)))
                         (set_location_hash "#/current-location" s)).
    { subst s'. unfold on_load, run, bind, get, assign_hash, modify.
      rewrite Hh. cbn. rewrite Hh. reflexivity. }
    clearbody s'. subst s'.
    split; [reflexivity|]. split; [reflexivity|].
    split; [unfold calls_between; cbn; apply drop_all|].
    eexists. split; [reflexivity|].
    rewrite checkHash_current_location by reflexivity.
    apply calls_between_app. cbn. by rewrite <- !app_assoc.
  - intros Hh. unfold on_load, bind, get.
    destruct (location_hash (br s)); [congruence|reflexivity].
Qed.

(** C8.  Once the current-location handler has asked for the position,
    a failure of the request assigns the fallback fragment
    ["#/weather?lat=28.6139&lon=77.209"], makes no call (so not
    [error404]) and leaves the error panel as it was; a success with a
    coordinate pair is [updateWeather] on that pair. *)
Theorem currentLocation_outcomes (s : state) :
  let s1 := run currentLocation s in
  (exists s2,
      step (E_position None) s1 = Some s2
      /\ location_hash (br s2) = "#/weather?lat=28.6139&lon=77.209"
      /\ calls_between s1 s2 = []
      /\ errorContent_display (pg s2) = errorContent_display (pg s))
  /\ (forall lat lon,
         exists s3,
           step (E_position (Some (lat, lon))) s1 = Some s3
           /\ s3 = run (updateWeather lat lon) (set_positions (positions (br s)) s1)
           /\ calls_between s1 s3
              = [Call_updateWeather lat lon; Call_fetchData (url_currentWeather lat lon)]).
Proof.
  intros s1. split.
  - eexists. split; [reflexivity|].
    unfold on_position_error, assign_hash, run, modify. cbn.
    destruct (String.eqb_spec (location_hash (br s)) defaultLocation) as [E|E];
      cbn; unfold calls_between; cbn; rewrite drop_all; repeat split.
    exact E.
  - intros lat lon. eexists. split; [reflexivity|]. split; [reflexivity|].
    apply calls_between_app. unfold on_position. rewrite updateWeather_log.
    reflexivity.
Qed.

End RouterTheorems.

(** ** The renderer *)

(** Equalities between stores built from field updates. *)
Ltac store_eq :=
  repeat match goal with
         | s : state |- _ => destruct s as [[] [] []]
         | h : hourly |- _ => destruct h
         end;
  cbn [pg sr br hourlySection forecastSection data_temp data_wind] in *;
  subst; try reflexivity.

Lemma js_index_nat {A : Type} (l : list A) (n : nat) :
  js_index l (Z.of_nat n) = l !! n.
Proof.
  unfold js_index. destruct (Z.ltb_spec (Z.of_nat n) 0); [lia|].
  by rewrite Nat2Z.id.
Qed.

Lemma js_index_last {A : Type} (l : list A) :
  js_index l (js_length l - 1) = last l.
Proof.
  unfold js_index, js_length. destruct l as [|a l]; [reflexivity|].
  destruct (Z.ltb_spec (Z.of_nat (length (a :: l)) - 1) 0) as [H|H];
    [cbn [length] in H; lia|].
  rewrite last_lookup. f_equal. cbn [length]. lia.
Qed.

Lemma in_range_lookup {A : Type} (l : list A) (n : nat) :
  (Z.of_nat n <? js_length l)%Z = true <-> is_Some (l !! n).
Proof.
  unfold js_length. rewrite Z.ltb_lt, lookup_lt_is_Some. lia.
Qed.

Lemma add_rows_app (h : hourly) (r1 r2 : list (temp_li * wind_li)) :
  add_rows (add_rows h r1) r2 = add_rows h (r1 ++ r2).
Proof. unfold add_rows. cbn. by rewrite !map_app, !app_assoc. Qed.

Lemma add_rows_nil (h : hourly) : add_rows h [] = h.
Proof. destruct h. unfold add_rows. cbn. by rewrite !app_nil_r. Qed.

Section RendererFacts.

Context {env : Env}.

Lemma append_hour_ok (t : temp_li) (w : wind_li) (h : hourly) (s : state) :
  hourlySection (pg s) = Some h ->
  append_hour t w s = (Ok tt, set_hourlySection (Some (add_rows h [(t, w)])) s).
Proof.
  intros H. unfold append_hour, bind, get, modify. rewrite H. cbn.
  f_equal; store_eq.
Qed.

Lemma append_day_ok (li : day_li) (x : list day_li) (s : state) :
  forecastSection (pg s) = Some x ->
  append_day li s = (Ok tt, set_forecastSection (Some (x ++ [li])) s).
Proof. intros H. unfold append_day, bind, get, modify. by rewrite H. Qed.

Lemma hourly_repeat_next (b : nat) (tz : Z) (p : forecast_point) (w : weather_desc)
    (i hc : Z) (h : hourly) (s : state) :
  weather p = w :: tl (weather p) ->
  hourlySection (pg s) = Some h ->
  (i < 3)%Z -> (hc < 24)%Z ->
  hourly_repeat (S b) tz p w i hc s
  = hourly_repeat b tz p w (i + 1) (hc + 1)
      (set_hourlySection (Some (add_rows h [hour_row tz p i])) s).
Proof.
  intros Hw Hh Hi Hc. cbn [hourly_repeat].
  apply Z.ltb_lt in Hi, Hc. rewrite Hi, Hc. cbn [andb].
  unfold bind at 1. erewrite append_hour_ok by exact Hh.
  unfold hour_row, hd_weather. rewrite Hw. reflexivity.
Qed.

Lemma hourly_repeat_done (b : nat) (tz : Z) (p : forecast_point) (w : weather_desc)
    (hc : Z) (s : state) :
  hourly_repeat b tz p w 3 hc s = (Ok hc, s).
Proof. destruct b; reflexivity. Qed.

(** One point, three rows, as long as fewer than 22 are there. *)
Lemma hourly_repeat_three (tz : Z) (p : forecast_point) (w : weather_desc)
    (hc : Z) (h : hourly) (s : state) :
  weather p = w :: tl (weather p) ->
  hourlySection (pg s) = Some h ->
  (hc <= 21)%Z ->
  hourly_repeat 3 tz p w 0 hc s
  = (Ok (hc + 3)%Z,
     set_hourlySection (Some (add_rows h (map (hour_row tz p) [0; 1; 2]%Z))) s).
Proof.
  intros Hw Hh Hc.
  erewrite hourly_repeat_next by (try eassumption; lia).
  erewrite hourly_repeat_next by (try eassumption; try reflexivity; lia).
  erewrite hourly_repeat_next by (try eassumption; try reflexivity; lia).
  change (0 + 1 + 1 + 1)%Z with 3%Z. rewrite hourly_repeat_done.
  f_equal; [f_equal; lia|].
  rewrite !add_rows_app. cbn [app map]. store_eq.
Qed.

Lemma hourly_loop_ok (tz : Z) (l : list forecast_point) :
  Forall shaped l ->
  forall (k : nat) (h : hourly) (s : state),
    k <= 8 ->
    hourlySection (pg s) = Some h ->
    hourly_loop tz l (3 * Z.of_nat k) s
    = (Ok tt,
       set_hourlySection
         (Some (add_rows h (flat_map (fun p => map (hour_row tz p) [0; 1; 2]%Z)
                              (take (8 - k) l)))) s).
Proof.
  induction 1 as [|p l Hp Hl IH]; intros k h s Hk Hh.
  - cbn. rewrite take_nil. cbn. rewrite add_rows_nil. f_equal; store_eq.
  - cbn [hourly_loop].
    destruct (Z.leb_spec 24 (3 * Z.of_nat k)) as [H24|H24].
    + assert (k = 8) as -> by lia. cbn. rewrite add_rows_nil. f_equal; store_eq.
    + unfold shaped in Hp. destruct (weather p) as [|w ws] eqn:Hw; [congruence|].
      unfold bind.
      erewrite hourly_repeat_three; [|by rewrite Hw|exact Hh|lia].
      replace (3 * Z.of_nat k + 3)%Z with (3 * Z.of_nat (S k))%Z by lia.
      erewrite IH; [|lia|reflexivity].
      replace (8 - k) with (S (8 - S k)) by lia. cbn [take flat_map].
      rewrite add_rows_app. f_equal; store_eq.
Qed.

Lemma days_loop_ok (l : list forecast_point) :
  Forall shaped l ->
  forall (n k b : nat) (acc : list day_li) (s : state),
    k + n = 7 -> n <= b ->
    forecastSection (pg s) = Some acc ->
    days_loop b l (Z.of_nat (7 + 8 * k)) (Z.of_nat k) s
    = (Ok (Z.of_nat (k + length (picks n (7 + 8 * k) l))),
       set_forecastSection (Some (acc ++ map real_day (picks n (7 + 8 * k) l))) s).
Proof.
  intros Hl. induction n as [|n IH]; intros k b acc s Hk Hb Hacc.
  - assert (k = 7) as -> by lia. destruct b; cbn [days_loop picks].
    all: rewrite andb_false_r; cbn; rewrite app_nil_r; f_equal; store_eq.
  - destruct b as [|b]; [lia|]. cbn [days_loop picks].
    destruct (l !! (7 + 8 * k)) as [p|] eqn:Hp.
    + assert (Hin : (Z.of_nat (7 + 8 * k) <? js_length l)%Z = true)
        by (apply in_range_lookup; eauto).
      assert (Hd : (Z.of_nat k <? 7)%Z = true) by (apply Z.ltb_lt; lia).
      rewrite Hin, Hd. cbn [andb]. rewrite js_index_nat, Hp.
      assert (Hs : shaped p).
      { eapply (proj1 (Forall_forall _ _) Hl), list_elem_of_lookup. eauto. }
      unfold shaped in Hs. destruct (weather p) as [|w ws] eqn:Hw; [congruence|].
      unfold bind. erewrite append_day_ok by exact Hacc.
      replace (Z.of_nat (7 + 8 * k) + 8)%Z with (Z.of_nat (7 + 8 * S k)) by lia.
      replace (Z.of_nat k + 1)%Z with (Z.of_nat (S k)) by lia.
      erewrite IH; [|lia|lia|reflexivity].
      replace (7 + 8 * k + 8) with (7 + 8 * S k) by lia.
      f_equal; [f_equal; cbn [length]; lia|].
      cbn [map]. rewrite <- app_assoc. cbn [app].
      assert (Hhd : hd_weather p = w) by (unfold hd_weather; by rewrite Hw).
      unfold real_day at 2. rewrite Hhd. reflexivity.
    + assert (Hin : (Z.of_nat (7 + 8 * k) <? js_length l)%Z = false).
      { destruct (Z.of_nat (7 + 8 * k) <? js_length l)%Z eqn:E; [|reflexivity].
        apply in_range_lookup in E as [x Hx]. congruence. }
      rewrite Hin. cbn. rewrite app_nil_r, Nat.add_0_r. f_equal; store_eq.
Qed.

Lemma pad_loop_ok (l : list forecast_point) (p : forecast_point) :
  last l = Some p -> shaped p ->
  forall (n k b : nat) (acc : list day_li) (s : state),
    k + n = 7 -> n <= b ->
    forecastSection (pg s) = Some acc ->
    pad_loop b l (Z.of_nat k) s
    = (Ok tt,
       set_forecastSection
         (Some (acc ++ map (pad_day p) (seqZ (Z.of_nat k) (Z.of_nat n)))) s).
Proof.
  intros Hlast Hs. induction n as [|n IH]; intros k b acc s Hk Hb Hacc.
  - assert (k = 7) as -> by lia. destruct b; cbn; rewrite app_nil_r; f_equal; store_eq.
  - destruct b as [|b]; [lia|]. cbn [pad_loop].
    assert (Hd : (Z.of_nat k <? 7)%Z = true) by (apply Z.ltb_lt; lia).
    rewrite Hd, js_index_last, Hlast.
    unfold shaped in Hs. destruct (weather p) as [|w ws] eqn:Hw; [congruence|].
    unfold bind. erewrite append_day_ok by exact Hacc.
    replace (Z.of_nat k + 1)%Z with (Z.of_nat (S k)) by lia.
    erewrite IH; [|lia|lia|reflexivity].
    rewrite (seqZ_cons (Z.of_nat k) (Z.of_nat (S n))) by lia.
    replace (Z.succ (Z.of_nat k)) with (Z.of_nat (S k)) by lia.
    replace (Z.pred (Z.of_nat (S n))) with (Z.of_nat n) by lia.
    cbn [map]. rewrite <- app_assoc. cbn [app].
    assert (Hhd : hd_weather p = w) by (unfold hd_weather; by rewrite Hw).
    unfold pad_day. rewrite Hhd. reflexivity.
Qed.

Lemma picks_length {A : Type} (n i : nat) (l : list A) : length (picks n i l) <= n.
Proof.
  revert i. induction n as [|n IH]; intros i; cbn; [lia|].
  destruct (l !! i); cbn; [|lia]. specialize (IH (i + 8)). lia.
Qed.

(** The element [k] of the picked points is the point at [i + 8 k]. *)
Lemma picks_lookup {A : Type} (n i k : nat) (l : list A) (x : A) :
  picks n i l !! k = Some x -> l !! (i + 8 * k) = Some x /\ k < n.
Proof.
  revert i k. induction n as [|n IH]; intros i k; cbn; [by rewrite lookup_nil|].
  destruct (l !! i) eqn:Hi; [|by rewrite lookup_nil].
  destruct k as [|k]; cbn.
  - intros [= <-]. rewrite Nat.add_0_r. split; [exact Hi|lia].
  - intros H. apply IH in H as [H1 H2]. split; [|lia].
    rewrite <- H1. f_equal. lia.
Qed.

(** On a non-empty list of shaped points the forecast callback ends
    normally, with the two sections filled. *)
Lemma on_forecast_ok (f : forecast_response) (s : state) :
  fc_list f <> [] -> Forall shaped (fc_list f) ->
  on_forecast f s = (Ok tt, rendered f s).
Proof.
  intros Hne Hl. unfold on_forecast, rendered, bind at 1, modify at 1.
  unfold bind at 1.
  rewrite (hourly_loop_ok _ _ Hl 0 no_rows) by (lia || reflexivity).
  unfold bind at 1, modify at 1. unfold bind at 1.
  rewrite (days_loop_ok _ Hl 7 0 7 []) by (lia || reflexivity).
  destruct (last (fc_list f)) as [p|] eqn:Hlast;
    [|apply last_None in Hlast; congruence].
  assert (Hp : shaped p).
  { rewrite last_lookup in Hlast.
    eapply (proj1 (Forall_forall _ _) Hl), list_elem_of_lookup. eauto. }
  pose proof (picks_length 7 7 (fc_list f)) as Hlen. cbn [Nat.mul Nat.add] in *.
  set (real := picks 7 7 (fc_list f)) in *.
  unfold bind at 1.
  rewrite (pad_loop_ok _ p Hlast Hp (7 - length real) (length real) 7
             (map real_day real)) by (lia || reflexivity).
  unfold seven_days, hour_rows. fold real. rewrite Hlast. unfold js_length.
  replace (Z.of_nat (7 - length real)) with (7 - Z.of_nat (length real))%Z by lia.
  cbn. f_equal; store_eq.
Qed.

(** On the empty list the callback stops at the first padded row: the
    slider lists and the forecast list are there and empty, and nothing
    else has changed. *)
Lemma on_forecast_empty (tz : Z) (s : state) :
  on_forecast {| fc_list := []; city_timezone := tz |} s
  = (Throw, set_forecastSection (Some []) (set_hourlySection (Some no_rows) s)).
Proof. reflexivity. Qed.

End RendererFacts.

Lemma lookup_map {A B : Type} (f : A -> B) (l : list A) (k : nat) (y : B) :
  map f l !! k = Some y -> exists x, l !! k = Some x /\ f x = y.
Proof.
  revert k. induction l as [|a l IH]; intros k; [by rewrite lookup_nil|].
  destruct k as [|k]; cbn.
  - intros [= <-]. eauto.
  - apply IH.
Qed.

Lemma spaced_tail (p : forecast_point) (l : list forecast_point) :
  spaced (p :: l) -> spaced l.
Proof. intros H i a b Ha Hb. exact (H (S i) a b Ha Hb). Qed.

Lemma three_each_length {A B : Type} (g : A -> list B) (n : nat) (l : list A) :
  (forall x, length (g x) = 3) ->
  length (flat_map g (take n l)) = Nat.min (3 * n) (3 * length l).
Proof.
  intros Hg. revert n. induction l as [|a l IH]; intros n.
  - rewrite take_nil. cbn. lia.
  - destruct n as [|n]; [reflexivity|].
    cbn [take flat_map length]. rewrite length_app, Hg, IH. lia.
Qed.

(** Along the rows of a three-hourly list, each time is one hour after
    the one before. *)
Lemma hour_rows_hourly (tz : Z) (l : list forecast_point) :
  spaced l ->
  forall (n k : nat) (a b : temp_li * wind_li),
    flat_map (fun p => map (hour_row tz p) [0; 1; 2]%Z) (take n l) !! k = Some a ->
    flat_map (fun p => map (hour_row tz p) [0; 1; 2]%Z) (take n l) !! S k = Some b ->
    t_time (fst b) = (t_time (fst a) + 3600)%Z
    /\ w_time (snd b) = (w_time (snd a) + 3600)%Z.
Proof.
  induction l as [|p l IH]; intros Hsp n k a b.
  - by rewrite take_nil.
  - destruct n as [|n]; [by cbn|].
    cbn [take flat_map map app].
    destruct k as [|[|[|k]]]; cbn [lookup list_lookup].
    + intros [= <-] [= <-]. cbn. lia.
    + intros [= <-] [= <-]. cbn. lia.
    + intros [= <-].
      destruct l as [|p' l]; [by rewrite take_nil|].
      destruct n as [|n]; [by cbn|].
      cbn [take flat_map map app lookup list_lookup]. intros [= <-].
      pose proof (Hsp 0 p p' eq_refl eq_refl) as Hdt. cbn. lia.
    + apply IH. by apply spaced_tail in Hsp.
Qed.

Lemma seven_days_length (l : list forecast_point) :
  l <> [] -> length (seven_days l) = 7.
Proof.
  intros Hne. unfold seven_days.
  destruct (last l) as [p|] eqn:Hlast; [|apply last_None in Hlast; congruence].
  pose proof (picks_length 7 7 l) as Hlen.
  rewrite length_app, !length_map, length_seqZ. unfold js_length. lia.
Qed.

Section RendererTheorems.

Context {env : Env}.

Lemma not_200_strict (v : jsval) :
  ~ is_200 v -> strict_neq_num v (JsNum.of_Z 200) = true.
Proof.
  intros H. destruct v as [| | |[| | |q]| |]; try reflexivity.
  cbn. apply negb_true_iff. destruct (Qeq_bool q (inject_Z 200)) eqn:E; [|reflexivity].
  exfalso. apply H. exists q. split; [reflexivity|]. by apply Qeq_bool_iff.
Qed.

Lemma on_currentWeather_error (lat lon : number) (cw : current_response) (s : state) :
  truthy (cod cw) = true -> ~ is_200 (cod cw) ->
  on_currentWeather lat lon cw s
  = (Ok tt,
     set_loading_display "none"
       (run error404 (run (call (Call_consoleError (message cw))) s))).
Proof.
  intros Ht Hn. unfold on_currentWeather.
  rewrite Ht, (not_200_strict _ Hn). reflexivity.
Qed.

(** C2, as the code has it.  A current-weather answer whose [cod] is
    truthy and is not the number 200 ends the callback in the error
    state: the diagnostic and [error404] are the only calls, the error
    panel is shown, the loading panel hidden, and the set of outstanding
    requests is unchanged, so none of the three further requests is
    issued. *)
Theorem on_currentWeather_error_status
    (lat lon : number) (cw : current_response) (s : state) :
  truthy (cod cw) = true ->
  ~ is_200 (cod cw) ->
  let s' := run (on_currentWeather lat lon cw) s in
  result (on_currentWeather lat lon cw) s = Ok tt
  /\ calls_between s s' = [Call_consoleError (message cw); Call_error404]
  /\ List.filter is_fetch (calls_between s s') = []
  /\ errorContent_display (pg s') = "flex"
  /\ loading_display (pg s') = "none"
  /\ requests (br s') = requests (br s).
Proof.
  intros Ht Hn s'. subst s'. unfold run at 1 2 3 4 5, result.
  rewrite (on_currentWeather_error lat lon cw s Ht Hn).
  assert (Hc : calls_between s
                 (set_loading_display "none"
                    (run error404 (run (call (Call_consoleError (message cw))) s)))
               = [Call_consoleError (message cw); Call_error404]).
  { apply calls_between_app. cbn. by rewrite <- app_assoc. }
  cbn [fst snd]. rewrite Hc. repeat split.
Qed.

(** An answer with [cod] 0 and the weather fields is rendered: the error
    panel stays hidden, the loading panel stays up, and the three
    further requests go out. *)
Lemma cod_zero_is_rendered :
  let cw := sample_current (JNum (Fin 0)) in
  let lat := JsNum.of_Z 28 in
  let lon := JsNum.of_Z 77 in
  let s := run (updateWeather lat lon) (initial "#/weather?lat=28&lon=77") in
  let s' := run (on_currentWeather lat lon cw) s in
  ~ is_200 (cod cw)
  /\ calls_between s s'
     = [Call_fetchData (url_reverseGeo lat lon);
        Call_fetchData (url_airPollution lat lon);
        Call_fetchData (url_forecast lat lon)]
  /\ errorContent_display (pg s') = "none"
  /\ loading_display (pg s') = "grid".
Proof.
  cbv zeta. split; [|split; [|split]]; try reflexivity.
  intros (q & Hq & H200). cbn in Hq. injection Hq as <-.
  unfold Qeq in H200. cbn in H200. lia.
Qed.

(** The forecast card on a non-empty list of shaped points: seven rows;
    row [k] of the real ones shows the point at index [7 + 8 k], and
    each row after them shows the last point of the list with its date
    moved by the row's position less four days. *)
Lemma seven_day_section (f : forecast_response) (s : state) :
  fc_list f <> [] -> Forall shaped (fc_list f) ->
  let l := fc_list f in
  let real := picks 7 7 l in
  exists rows,
    forecastSection (pg (run (on_forecast f) s)) = Some rows
    /\ length rows = 7
    /\ (forall k p, real !! k = Some p ->
                    l !! (7 + 8 * k) = Some p /\ rows !! k = Some (real_day p))
    /\ (forall k, length real <= k < 7 ->
                  exists p, last l = Some p
                            /\ rows !! k = Some (pad_day p (Z.of_nat k))
                            /\ d_date (pad_day p (Z.of_nat k))
                               = DateShifted (dt_txt p) (Z.of_nat k - 4)).
Proof.
  intros Hne Hl l real. subst l. set (l := fc_list f) in *.
  assert (Hne' : l <> []) by exact Hne.
  unfold run. rewrite (on_forecast_ok f s Hne Hl).
  exists (seven_days l). split; [reflexivity|].
  split; [by apply seven_days_length|].
  unfold seven_days. fold real.
  destruct (last l) as [p|] eqn:Hlast; [|apply last_None in Hlast; congruence].
  pose proof (picks_length 7 7 l) as Hlen. fold real in Hlen. split.
  - intros k q Hk. split; [by apply picks_lookup in Hk as [? _]|].
    rewrite lookup_app_l by (rewrite length_map; by apply lookup_lt_Some in Hk).
    clear -Hk. revert k Hk. induction real as [|a r IH]; intros [|k] Hk;
      try done; cbn in *; [by injection Hk as ->|by apply IH].
  - intros k Hk. exists p. split; [reflexivity|]. split; [|reflexivity].
    rewrite lookup_app_r by (rewrite length_map; lia). rewrite length_map.
    unfold js_length.
    assert (Hseq : seqZ (Z.of_nat (length real)) (7 - Z.of_nat (length real))
                     !! (k - length real) = Some (Z.of_nat k)).
    { rewrite lookup_seqZ. split; lia. }
    revert Hseq. generalize (seqZ (Z.of_nat (length real)) (7 - Z.of_nat (length real))).
    generalize (k - length real). clear. intros n l. revert n.
    induction l as [|a l IH]; intros [|n] H; try done; cbn in *;
      [by injection H as ->|by apply IH].
Qed.

(** C3, at the empty list.  After a page load on a weather fragment and
    a good current-weather answer, a forecast answer with an empty list
    leaves the forecast card with no row, not seven, and the page in the
    loading state. *)
Theorem seven_day_section_empty_list :
  exists s,
    steps (env := decimalEnv) [E_load;
           E_response 0 (R_currentWeather (sample_current (JNum (Fin 200))));
           E_response 3 (R_forecast (sample_forecast []))]
      (initial "#/weather?lat=28.6139&lon=77.209") = Some s
    /\ forecastSection (pg s) = Some []
    /\ only Loading s.
Proof.
  eexists. split; [vm_compute; reflexivity|]. split; [reflexivity|].
  intros [| |]; cbn; split; intros H; try reflexivity; discriminate.
Qed.

(** C4.  For a forecast list of shaped points three hours apart, the
    two slider lists of the hourly section each hold min(24, 3 n)
    entries for n points: each of the first points three times, at
    zero, one and two hours past its own time; along either list each
    time is 3600 seconds after the one before. *)
Theorem hourly_section_rows (f : forecast_response) (s : state) :
  Forall shaped (fc_list f) ->
  spaced (fc_list f) ->
  let l := fc_list f in
  let rows := flat_map (fun p => map (hour_row (city_timezone f) p) [0; 1; 2]%Z)
                (take 8 l) in
  exists h,
    hourlySection (pg (run (on_forecast f) s)) = Some h
    /\ data_temp h = map fst rows
    /\ data_wind h = map snd rows
    /\ length (data_temp h) = Nat.min 24 (3 * length l)
    /\ length (data_wind h) = Nat.min 24 (3 * length l)
    /\ (forall k a b, data_temp h !! k = Some a -> data_temp h !! S k = Some b ->
                      t_time b = (t_time a + 3600)%Z)
    /\ (forall k a b, data_wind h !! k = Some a -> data_wind h !! S k = Some b ->
                      w_time b = (w_time a + 3600)%Z).
Proof.
  intros Hl Hsp l rows.
  assert (Hh : hourlySection (pg (run (on_forecast f) s))
               = Some (add_rows no_rows rows)).
  { destruct (fc_list f) as [|p l'] eqn:Hf.
    - destruct f as [fl tz]. cbn in Hf. subst fl. reflexivity.
    - unfold run. rewrite on_forecast_ok; [|congruence|by rewrite Hf].
      unfold rendered, hour_rows. rewrite Hf. reflexivity. }
  exists (add_rows no_rows rows). split; [exact Hh|].
  cbn [add_rows no_rows data_temp data_wind app].
  assert (Hlen : length rows = Nat.min 24 (3 * length l)).
  { unfold rows. rewrite three_each_length by reflexivity. reflexivity. }
  rewrite !length_map.
  repeat split; try exact Hlen.
  - intros k a b Ha Hb.
    apply lookup_map in Ha as (ra & Ha & <-). apply lookup_map in Hb as (rb & Hb & <-).
    exact (proj1 (hour_rows_hourly _ _ Hsp 8 k ra rb Ha Hb)).
  - intros k a b Ha Hb.
    apply lookup_map in Ha as (ra & Ha & <-). apply lookup_map in Hb as (rb & Hb & <-).
    exact (proj2 (hour_rows_hourly _ _ Hsp 8 k ra rb Ha Hb)).
Qed.

(** C10.  On the empty forecast list the callback reads the element at
    index -1, which is not there, and ends with an error: the forecast
    card has no row, no call is made (so not [error404]) and the three
    panels stay as they were.  On a list of shaped points the callback
    ends normally exactly when the list is not empty. *)
Theorem on_forecast_total_iff_nonempty :
  (forall (tz : Z) (s : state),
      let f := {| fc_list := []; city_timezone := tz |} in
      let s' := run (on_forecast f) s in
      js_index (fc_list f) (js_length (fc_list f) - 1) = None
      /\ result (on_forecast f) s = Throw
      /\ forecastSection (pg s') = Some []
      /\ calls_between s s' = []
      /\ loading_display (pg s') = loading_display (pg s)
      /\ container_fade_in (pg s') = container_fade_in (pg s)
      /\ errorContent_display (pg s') = errorContent_display (pg s))
  /\ (forall (f : forecast_response) (s : state),
         Forall shaped (fc_list f) ->
         (result (on_forecast f) s = Ok tt <-> fc_list f <> [])).
Proof.
  split.
  - intros tz s f s'. subst f s'. unfold run, result.
    rewrite on_forecast_empty. cbn [fst snd].
    repeat split. unfold calls_between. cbn. apply drop_all.
  - intros f s Hl. split.
    + intros Hok Hnil. destruct f as [fl tz]. cbn in Hnil. subst fl.
      unfold result in Hok. rewrite on_forecast_empty in Hok. discriminate.
    + intros Hne. unfold result. by rewrite on_forecast_ok.
Qed.

(** After a full render, [error404] shows the error panel over the
    content: two states are active. *)
Lemma error404_over_content :
  exists s,
    steps (env := decimalEnv) [E_load;
           E_response 0 (R_currentWeather (sample_current (JNum (Fin 200))));
           E_response 3 (R_forecast (sample_forecast three_points));
           E_navigate "#/nowhere";
           E_hashchange]
      (initial "#/weather?lat=28.6139&lon=77.209") = Some s
    /\ calls_between (initial "") s
       = [Call_checkHash; Call_route "/weather" "lat=28.6139&lon=77.209";
          Call_updateWeather (Fin 28.6139) (Fin 77.209);
          Call_fetchData (url_currentWeather (Fin 28.6139) (Fin 77.209));
          Call_fetchData (url_reverseGeo (Fin 28.6139) (Fin 77.209));
          Call_fetchData (url_airPollution (Fin 28.6139) (Fin 77.209));
          Call_fetchData (url_forecast (Fin 28.6139) (Fin 77.209));
          Call_checkHash; Call_error404]
    /\ active Error s
    /\ active Content s
    /\ ~ only Error s.
Proof.
  eexists. split; [vm_compute; reflexivity|]. split; [reflexivity|].
  split; [reflexivity|]. split; [reflexivity|].
  intros H. specialize (H Content). cbn in H. destruct H as [H _].
  specialize (H eq_refl). discriminate.
Qed.

(** C6, as the code has it.  The entry of [updateWeather] leaves the
    loading state active and the other two cleared.  [error404] shows
    the error panel and touches nothing else; the error path of the
    current-weather callback then hides the loading panel, so it leaves
    the error state alone active when the content was not showing.  The
    end of the forecast callback hides the loading panel and shows the
    content, so it leaves the content state alone active when the error
    panel was not showing. *)
Theorem visual_state_transitions :
  (forall lat lon s, only Loading (run (updateWeather lat lon) s))
  /\ (forall s,
         active Error (run error404 s)
         /\ (active Loading (run error404 s) <-> active Loading s)
         /\ (active Content (run error404 s) <-> active Content s))
  /\ (forall lat lon cw s,
         truthy (cod cw) = true -> ~ is_200 (cod cw) ->
         ~ active Content s ->
         only Error (run (on_currentWeather lat lon cw) s))
  /\ (forall f s,
         fc_list f <> [] -> Forall shaped (fc_list f) ->
         ~ active Error s ->
         only Content (run (on_forecast f) s)).
Proof.
  split; [|split; [|split]].
  - intros lat lon s [| |]; unfold updateWeather, run, bind, call, modify, get, fetchData;
      cbn; destruct (String.eqb _ _); cbn; split; intros H;
      try reflexivity; discriminate.
  - intros s. repeat split; auto.
  - intros lat lon cw s Ht Hn Hc. unfold run.
    rewrite (on_currentWeather_error lat lon cw s Ht Hn).
    intros [| |]; cbn; split; intros H; try reflexivity; try discriminate.
    contradiction.
  - intros f s Hne Hl He. unfold run. rewrite (on_forecast_ok f s Hne Hl).
    intros [| |]; cbn; split; intros H; try reflexivity; try discriminate.
    contradiction.
Qed.

End RendererTheorems.

(** ** The search box *)

Lemma keeps_ret {A : Type} (a : A) : keeps (ret a).
Proof. intros s. reflexivity. Qed.

Lemma keeps_throw {A : Type} : keeps (@throw A).
Proof. intros s. reflexivity. Qed.

Lemma keeps_diverge {A : Type} : keeps (@diverge A).
Proof. intros s. reflexivity. Qed.

Lemma keeps_get {A : Type} (f : state -> A) : keeps (get f).
Proof. intros s. reflexivity. Qed.

Lemma keeps_modify (f : state -> state) :
  (forall s, debounce_view (f s) = debounce_view s) -> keeps (modify f).
Proof. intros H s. apply H. Qed.

Lemma keeps_bind {A B : Type} (m : M A) (k : A -> M B) :
  keeps m -> (forall a, keeps (k a)) -> keeps (bind m k).
Proof.
  intros Hm Hk s. unfold bind. specialize (Hm s).
  destruct (m s) as [[a| |] s1]; cbn in *; [|exact Hm|exact Hm].
  rewrite <- Hm. apply Hk.
Qed.

(** Splits a listener into its steps; what is left are the loops. *)
Ltac keeps_steps :=
  repeat first
    [ apply keeps_ret | apply keeps_throw | apply keeps_diverge | apply keeps_get
    | apply keeps_modify; intros ?; reflexivity
    | apply keeps_bind; [|intros ?]
    | match goal with
      | |- keeps (match ?x with _ => _ end) => destruct x
      | |- keeps (let _ := _ in _) => cbv zeta
      | H : _ |- _ => apply H
      end ].

Section SearchFacts.

Context {env : Env}.

Lemma keeps_call (c : called) : keeps (call c).
Proof. unfold call. keeps_steps. Qed.

Lemma keeps_fetchData (e : endpoint) (k : continuation) : keeps (fetchData e k).
Proof. unfold fetchData, call. keeps_steps. Qed.

Lemma keeps_error404 : keeps error404.
Proof. unfold error404, call. keeps_steps. Qed.

Lemma keeps_assign_hash (v : string) : keeps (assign_hash v).
Proof.
  intros s. unfold assign_hash, modify. cbn.
  destruct (String.eqb _ _); reflexivity.
Qed.

Lemma keeps_updateWeather (lat lon : number) : keeps (updateWeather lat lon).
Proof. unfold updateWeather, fetchData, call. keeps_steps. Qed.

Lemma keeps_on_currentWeather (lat lon : number) (cw : current_response) :
  keeps (on_currentWeather lat lon cw).
Proof. unfold on_currentWeather, error404, fetchData, call. keeps_steps. Qed.

Lemma keeps_on_reverseGeo (card : nat) (l : list place) : keeps (on_reverseGeo card l).
Proof. unfold on_reverseGeo. keeps_steps. Qed.

Lemma keeps_on_airPollution (cw : current_body) (l : list air_point) :
  keeps (on_airPollution cw l).
Proof. unfold on_airPollution. keeps_steps. Qed.

Lemma keeps_append_hour (t : temp_li) (w : wind_li) : keeps (append_hour t w).
Proof. unfold append_hour. keeps_steps. Qed.

Lemma keeps_append_day (li : day_li) : keeps (append_day li).
Proof. unfold append_day. keeps_steps. Qed.

Lemma keeps_hourly_repeat (b : nat) (tz : Z) (p : forecast_point) (w : weather_desc)
    (i hc : Z) :
  keeps (hourly_repeat b tz p w i hc).
Proof.
  revert i hc. induction b as [|b IH]; intros i hc; cbn [hourly_repeat];
    destruct (_ && _); try apply keeps_ret; try apply keeps_diverge.
  apply keeps_bind; [apply keeps_append_hour|intros _; apply IH].
Qed.

Lemma keeps_hourly_loop (tz : Z) (l : list forecast_point) (hc : Z) :
  keeps (hourly_loop tz l hc).
Proof.
  revert hc. induction l as [|p l IH]; intros hc; cbn [hourly_loop];
    [apply keeps_ret|].
  destruct (24 <=? hc)%Z; [apply keeps_ret|].
  destruct (weather p); [apply keeps_throw|].
  apply keeps_bind; [apply keeps_hourly_repeat|intros ?; apply IH].
Qed.

Lemma keeps_days_loop (b : nat) (l : list forecast_point) (i d : Z) :
  keeps (days_loop b l i d).
Proof.
  revert i d. induction b as [|b IH]; intros i d; cbn [days_loop];
    destruct (_ && _); try apply keeps_ret; try apply keeps_diverge.
  destruct (js_index l i) as [p|]; [|apply keeps_throw].
  destruct (weather p); [apply keeps_throw|].
  apply keeps_bind; [apply keeps_append_day|intros _; apply IH].
Qed.

Lemma keeps_pad_loop (b : nat) (l : list forecast_point) (d : Z) :
  keeps (pad_loop b l d).
Proof.
  revert d. induction b as [|b IH]; intros d; cbn [pad_loop];
    destruct (d <? 7)%Z; try apply keeps_ret; try apply keeps_diverge.
  destruct (js_index l _) as [p|]; [|apply keeps_throw].
  destruct (weather p); [apply keeps_throw|].
  apply keeps_bind; [apply keeps_append_day|intros _; apply IH].
Qed.

Lemma keeps_on_forecast (f : forecast_response) : keeps (on_forecast f).
Proof.
  unfold on_forecast. cbv zeta.
  repeat (apply keeps_bind; [|intros ?]);
    try (apply keeps_modify; intros ?; reflexivity).
  - apply keeps_hourly_loop.
  - apply keeps_days_loop.
  - apply keeps_pad_loop.
Qed.

Lemma keeps_search_rows (l : list location) : keeps (search_rows l).
Proof.
  induction l as [|a l IH]; cbn [search_rows]; [apply keeps_ret|].
  apply keeps_bind; [apply keeps_get|intros [x|]]; [|apply keeps_throw].
  apply keeps_bind; [apply keeps_modify; intros ?; reflexivity|intros _; apply IH].
Qed.

Lemma keeps_on_geo (l : list location) : keeps (on_geo l).
Proof.
  unfold on_geo.
  repeat (apply keeps_bind; [apply keeps_modify; intros ?; reflexivity|intros _]).
  apply keeps_search_rows.
Qed.

Lemma keeps_resume (k : continuation) (r : response) : keeps (resume k r).
Proof.
  destruct k, r; cbn [resume]; try apply keeps_throw.
  - apply keeps_on_currentWeather.
  - apply keeps_on_reverseGeo.
  - apply keeps_on_airPollution.
  - apply keeps_on_forecast.
  - apply keeps_on_geo.
Qed.

Lemma keeps_searchedLocation (query : string) : keeps (searchedLocation query).
Proof.
  unfold searchedLocation. cbv zeta.
  destruct (_ || _); [apply keeps_error404|].
  destruct (find _ _); [|apply keeps_throw].
  destruct (find _ _); [|apply keeps_throw].
  destruct (_ || _); [apply keeps_error404|apply keeps_updateWeather].
Qed.

Lemma keeps_checkHash : keeps checkHash.
Proof.
  intros s. rewrite checkHash_unfold. revert s.
  change (keeps (fun s =>
    (call Call_checkHash;;
     match routes !! route_name (location_hash (br s)) with
     | Some h =>
         call (Call_route (route_name (location_hash (br s)))
                 (route_query (location_hash (br s))));;
         invoke h (route_query (location_hash (br s)))
     | None => error404
     end) s)).
  intros s. unfold bind at 1. cbn [call modify].
  destruct (routes !! _) as [h|].
  - set (s1 := set_log _ s). change (debounce_view s) with (debounce_view s1).
    apply keeps_bind; [apply keeps_call|intros _].
    destruct h; cbn [invoke]; [|apply keeps_searchedLocation].
    unfold currentLocation. apply keeps_bind; [apply keeps_call|intros _].
    apply keeps_modify. reflexivity.
  - set (s1 := set_log _ s). change (debounce_view s) with (debounce_view s1).
    apply keeps_error404.
Qed.

Lemma keeps_on_load : keeps on_load.
Proof.
  unfold on_load. apply keeps_bind; [apply keeps_get|intros h].
  destruct (negb _); [apply keeps_assign_hash|apply keeps_checkHash].
Qed.

Lemma keeps_on_timeout : keeps on_timeout.
Proof.
  unfold on_timeout. apply keeps_bind; [apply keeps_get|intros v].
  apply keeps_fetchData.
Qed.

End SearchFacts.

Section SearchTheorems.

Context {env : Env}.

Lemma debounce_inv_view (s s' : state) :
  debounce_view s' = debounce_view s -> debounce_inv s -> debounce_inv s'.
Proof.
  unfold debounce_view, debounce_inv. intros [= Ht Hn Hs] H t ms.
  rewrite Ht, Hn, Hs. apply H.
Qed.

Lemma debounce_inv_keeps {A : Type} (m : M A) (s0 s : state) :
  keeps m -> debounce_view s0 = debounce_view s -> debounce_inv s ->
  debounce_inv (run m s0).
Proof.
  intros Hm Hv. apply debounce_inv_view. unfold run. by rewrite Hm.
Qed.

(** Once the handle held in [searchTimeout] is cleared, nothing is
    pending. *)
Lemma cleared_empty (s : state) :
  debounce_inv s ->
  match searchTimeout (sr s) with
  | Some t => delete t (timers (br s))
  | None => timers (br s)
  end = ∅.
Proof.
  intros Hinv. apply map_empty. intros i.
  destruct (searchTimeout (sr s)) as [t|] eqn:Ht.
  - destruct (decide (i = t)) as [->|Hne]; [apply lookup_delete_eq|].
    rewrite lookup_delete_ne by congruence.
    destruct (timers (br s) !! i) as [ms|] eqn:Hi; [|reflexivity].
    apply Hinv in Hi as [Hi _]. congruence.
  - destruct (timers (br s) !! i) as [ms|] eqn:Hi; [|reflexivity].
    apply Hinv in Hi as [Hi _]. congruence.
Qed.

Lemma on_input_timers (s : state) :
  timers (br (run on_input s))
  = let cleared := match searchTimeout (sr s) with
                   | Some t => delete t (timers (br s))
                   | None => timers (br s)
                   end in
    if JsString.truthy (searchField_value (sr s))
    then <[next_timer (br s) := searchTimeoutDuration]> cleared
    else cleared.
Proof.
  destruct s as [p [fv fs ra rs rl [t|]] b]; destruct fv; reflexivity.
Qed.

Lemma on_input_calls (s : state) :
  log (br (run on_input s))
  = log (br s) ++ cancellation s
    ++ (if JsString.truthy (searchField_value (sr s))
        then [Call_setTimeout (next_timer (br s)) searchTimeoutDuration]
        else []).
Proof.
  destruct s as [p [fv fs ra rs rl [t|]] b]; destruct fv;
    unfold on_input, clearTimeout, setTimeout, call, cancellation, run, bind, get, modify;
    simpl; rewrite <- ?app_assoc, ?app_nil_r; reflexivity.
Qed.

Lemma on_input_search (s : state) :
  let s' := run on_input s in
  searchField_value (sr s') = searchField_value (sr s)
  /\ requests (br s') = requests (br s)
  /\ next_timer (br s')
     = (if JsString.truthy (searchField_value (sr s))
        then Pos.succ (next_timer (br s)) else next_timer (br s))
  /\ searchTimeout (sr s')
     = (if JsString.truthy (searchField_value (sr s))
        then Some (next_timer (br s)) else searchTimeout (sr s))
  /\ (searchField_value (sr s) = "" ->
      searchResult_list (sr s') = None /\ searchResult_active (sr s') = false).
Proof.
  destruct s as [p [fv fs ra rs rl [t|]] b]; destruct fv;
    repeat split; intros; (reflexivity || discriminate).
Qed.

Lemma debounce_inv_on_input (s : state) :
  debounce_inv s -> debounce_inv (run on_input s).
Proof.
  intros Hinv t ms. rewrite on_input_timers. cbv zeta.
  rewrite (cleared_empty s Hinv).
  destruct (on_input_search s) as (_ & _ & Hn & Hs & _). rewrite Hn, Hs.
  destruct (JsString.truthy _).
  - intros H. apply lookup_insert_Some in H as [[<- _]|[_ H]];
      [split; [reflexivity|lia]|by rewrite lookup_empty in H].
  - by rewrite lookup_empty.
Qed.

(** The invariant holds in every store the page can be in. *)
Lemma debounce_inv_reachable (s : state) : reachable s -> debounce_inv s.
Proof.
  induction 1 as [hash|e s s' Hr IH Hstep].
  - intros t ms. cbn. by rewrite lookup_empty.
  - destruct e; cbn [step] in Hstep.
    + injection Hstep as <-. by eapply debounce_inv_keeps; [apply keeps_on_load|..].
    + destruct (hashchanges (br s)); [discriminate|]. injection Hstep as <-.
      by eapply debounce_inv_keeps; [apply keeps_checkHash|..].
    + injection Hstep as <-. by eapply debounce_inv_keeps; [apply keeps_assign_hash|..].
    + injection Hstep as <-. apply debounce_inv_on_input.
      by eapply debounce_inv_view; [|exact IH].
    + destruct (timers (br s) !! t) eqn:Ht; [|discriminate]. injection Hstep as <-.
      eapply (debounce_inv_keeps _ _ (set_timers (delete t (timers (br s))) s));
        [apply keeps_on_timeout|reflexivity|].
      intros t' ms. cbn. intros H. apply lookup_delete_Some in H as [_ H].
      by apply IH in H.
    + destruct (positions (br s)); [discriminate|]. injection Hstep as <-.
      destruct coords as [[lat lon]|].
      * by eapply debounce_inv_keeps; [apply keeps_updateWeather|..].
      * by eapply debounce_inv_keeps; [apply keeps_assign_hash|..].
    + destruct (requests (br s) !! id) as [[? k]|]; [|discriminate].
      injection Hstep as <-. by eapply debounce_inv_keeps; [apply keeps_resume|..].
    + destruct (requests (br s) !! id); [|discriminate]. injection Hstep as <-.
      by eapply debounce_inv_view; [|exact IH].
Qed.

(** Whenever a pending timeout expires, one request goes out: the geocode
    search for what the field holds at that moment. *)
Lemma timeout_fetches_field (s : state) (t : positive) (ms : Z) :
  timers (br s) !! t = Some ms ->
  exists s',
    step (E_timeout t) s = Some s'
    /\ calls_between s s' = [Call_fetchData (url_geo (searchField_value (sr s)))].
Proof.
  intros Ht. unfold step. rewrite Ht. eexists. split; [reflexivity|].
  apply calls_between_app. reflexivity.
Qed.

(** C9.  An input event on the search field first cancels the timeout
    held in [searchTimeout]; every timeout pending before the event is
    gone after it.  With an empty field the result list is emptied and
    hidden, nothing is scheduled and no request is issued.  With a
    non-empty field one timeout of 500 ms is scheduled, the only one
    pending, and its expiry issues one request: the geocode search for
    the field's value. *)
Theorem search_input_debounce (v : string) (s : state) :
  reachable s ->
  let s' := run on_input (set_searchField_value v s) in
  (forall t ms, timers (br s) !! t = Some ms -> timers (br s') !! t = None)
  /\ (v = "" ->
      calls_between s s' = cancellation s
      /\ timers (br s') = ∅
      /\ requests (br s') = requests (br s)
      /\ searchResult_list (sr s') = None
      /\ searchResult_active (sr s') = false)
  /\ (v <> "" ->
      exists t,
        calls_between s s' = cancellation s ++ [Call_setTimeout t 500]
        /\ timers (br s') = {[ t := 500%Z ]}
        /\ requests (br s') = requests (br s)
        /\ exists s'',
            step (E_timeout t) s' = Some s''
            /\ calls_between s' s'' = [Call_fetchData (url_geo v)]
            /\ timers (br s'') = ∅).
Proof.
  intros Hreach s'. pose proof (debounce_inv_reachable s Hreach) as Hinv.
  set (s0 := set_searchField_value v s) in *.
  assert (Hinv0 : debounce_inv s0) by (by eapply debounce_inv_view; [|exact Hinv]).
  pose proof (on_input_timers s0) as Ht. cbv zeta in Ht.
  rewrite (cleared_empty s0 Hinv0) in Ht. fold s' in Ht.
  pose proof (on_input_calls s0) as Hc. fold s' in Hc.
  destruct (on_input_search s0) as (Hv & Hq & _ & _ & Hl). fold s' in Hv, Hq, Hl.
  change (searchField_value (sr s0)) with v in *.
  change (cancellation s0) with (cancellation s) in Hc.
  change (log (br s0)) with (log (br s)) in Hc.
  change (next_timer (br s0)) with (next_timer (br s)) in *.
  change (requests (br s0)) with (requests (br s)) in Hq.
  split; [|split].
  - intros t ms Hpending. rewrite Ht. destruct (JsString.truthy v); [|apply lookup_empty].
    apply Hinv in Hpending as [_ Hlt]. rewrite lookup_insert_ne by lia.
    apply lookup_empty.
  - intros ->. cbn in Ht, Hc. rewrite app_nil_r in Hc.
    destruct (Hl eq_refl) as [Hl1 Hl2].
    split; [by apply calls_between_app|]. by repeat split.
  - intros Hne. assert (Htr : JsString.truthy v = true) by (by destruct v).
    rewrite Htr in Ht, Hc. exists (next_timer (br s)).
    split; [by apply calls_between_app|]. split; [exact Ht|]. split; [exact Hq|].
    unfold step. rewrite Ht, lookup_insert_eq. eexists. split; [reflexivity|].
    split.
    + apply calls_between_app. unfold on_timeout, fetchData, call, run, bind, get, modify.
      cbn. by rewrite Hv.
    + unfold on_timeout, fetchData, call, run, bind, get, modify. cbn.
      rewrite delete_insert_eq. apply delete_empty.
Qed.

End SearchTheorems.

(** ** The loops end within their budgets *)

Create HintDb halts.

Lemma halts_ret {A : Type} (a : A) : halts (ret a).
Proof. intros s. discriminate. Qed.

Lemma halts_throw {A : Type} : halts (@throw A).
Proof. intros s. discriminate. Qed.

Lemma halts_get {A : Type} (f : state -> A) : halts (get f).
Proof. intros s. discriminate. Qed.

Lemma halts_modify (f : state -> state) : halts (modify f).
Proof. intros s. discriminate. Qed.

Lemma halts_bind {A B : Type} (m : M A) (k : A -> M B) :
  halts m -> (forall a, halts (k a)) -> halts (bind m k).
Proof.
  intros Hm Hk s. unfold result, bind. specialize (Hm s). unfold result in Hm.
  destruct (m s) as [[a| |] s1]; cbn in *; [apply Hk|discriminate|congruence].
Qed.

#[local] Hint Resolve halts_ret halts_throw halts_get halts_modify : halts.
#[local] Hint Extern 2 (halts (bind _ _)) => apply halts_bind; [|intros ?] : halts.
#[local] Hint Extern 3 (halts (match ?x with _ => _ end)) => destruct x : halts.

Lemma halts_call (c : called) : halts (call c).
Proof. unfold call. auto with halts. Qed.

Lemma halts_fetchData (e : endpoint) (k : continuation) : halts (fetchData e k).
Proof. unfold fetchData, call. auto with halts. Qed.

Lemma halts_error404 : halts error404.
Proof. unfold error404, call. auto with halts. Qed.

Lemma halts_append_hour (t : temp_li) (w : wind_li) : halts (append_hour t w).
Proof. unfold append_hour. auto 10 with halts. Qed.

Lemma halts_append_day (li : day_li) : halts (append_day li).
Proof. unfold append_day. auto with halts. Qed.

#[local] Hint Resolve halts_call halts_fetchData halts_error404
  halts_append_hour halts_append_day : halts.

(** Three iterations at most are left when [i] starts at zero. *)
Lemma halts_hourly_repeat (b : nat) (tz : Z) (p : forecast_point) (w : weather_desc)
    (i hc : Z) :
  (3 - i <= Z.of_nat b)%Z -> halts (hourly_repeat b tz p w i hc).
Proof.
  revert i hc. induction b as [|b IH]; intros i hc Hb; cbn [hourly_repeat];
    destruct (Z.ltb_spec i 3); cbn [andb]; auto with halts; try lia.
  destruct (hc <? 24)%Z; auto with halts.
  apply halts_bind; [auto with halts|intros _]. apply IH. lia.
Qed.

Lemma halts_hourly_loop (tz : Z) (l : list forecast_point) (hc : Z) :
  halts (hourly_loop tz l hc).
Proof.
  revert hc. induction l as [|p l IH]; intros hc; cbn [hourly_loop]; auto with halts.
  destruct (24 <=? hc)%Z; auto with halts.
  destruct (weather p); auto with halts.
  apply halts_bind; [apply halts_hourly_repeat; lia|intros ?; apply IH].
Qed.

(** Seven rows at most are left when [daysProcessed] starts at zero. *)
Lemma halts_days_loop (b : nat) (l : list forecast_point) (i d : Z) :
  (7 - d <= Z.of_nat b)%Z -> halts (days_loop b l i d).
Proof.
  revert i d. induction b as [|b IH]; intros i d Hb; cbn [days_loop];
    destruct (Z.ltb_spec d 7); rewrite ?andb_false_r, ?andb_true_r;
    auto with halts; try lia.
  destruct (i <? js_length l)%Z; auto with halts.
  destruct (js_index l i) as [p|]; auto with halts.
  destruct (weather p); auto with halts.
  apply halts_bind; [auto with halts|intros _]. apply IH. lia.
Qed.

Lemma halts_pad_loop (b : nat) (l : list forecast_point) (d : Z) :
  (7 - d <= Z.of_nat b)%Z -> halts (pad_loop b l d).
Proof.
  revert d. induction b as [|b IH]; intros d Hb; cbn [pad_loop];
    destruct (Z.ltb_spec d 7); auto with halts; try lia.
  destruct (js_index l _) as [p|]; auto with halts.
  destruct (weather p); auto with halts.
  apply halts_bind; [auto with halts|intros _]. apply IH. lia.
Qed.

(** What [days_loop] returns is at least what it was given. *)
Lemma days_loop_grows (b : nat) (l : list forecast_point) (i d : Z) (s : state) (d' : Z) :
  result (days_loop b l i d) s = Ok d' -> (d <= d')%Z.
Proof.
  revert i d s. induction b as [|b IH]; intros i d s; cbn [days_loop];
    destruct (_ && _); try (intros [= <-]; lia); try discriminate.
  destruct (js_index l i) as [p|]; [|discriminate].
  destruct (weather p); [discriminate|].
  unfold result, bind. destruct (append_day _ s) as [[[]| |] s1]; try discriminate.
  intros H. apply IH in H. lia.
Qed.

(** The forecast callback never exhausts a budget, whatever the list. *)
Lemma halts_on_forecast (f : forecast_response) : halts (on_forecast f).
Proof.
  unfold on_forecast. cbv zeta.
  apply halts_bind; [auto with halts|intros _].
  apply halts_bind; [apply halts_hourly_loop|intros _].
  apply halts_bind; [auto with halts|intros _].
  intros s. unfold result, bind.
  pose proof (halts_days_loop 7 (fc_list f) 7 0 ltac:(lia) s) as Hd.
  pose proof (days_loop_grows 7 (fc_list f) 7 0 s) as Hg.
  unfold result in Hd, Hg.
  destruct (days_loop 7 (fc_list f) 7 0 s) as [[d| |] s1]; cbn in *;
    [|discriminate|congruence].
  specialize (Hg d eq_refl).
  assert (Hp : halts (pad_loop 7 (fc_list f) d;;
                      modify (set_loading_display "none");;
                      modify (set_container_overflowY "overlay");;
                      modify (set_container_fade_in true))).
  { apply halts_bind; [apply halts_pad_loop; lia|intros _]. auto 10 with halts. }
  exact (Hp s1).
Qed.

(** ** Concrete runs *)

(** The fragment [#/weather?lat=999&lon=0]: error state, no request. *)
Lemma searchedLocation_invalid_query_witness :
  let s := initial "#/weather?lat=999&lon=0" in
  searchedLocation (env := decimalEnv) "lat=999&lon=0" s = error404 s
  /\ calls_between s (run (searchedLocation (env := decimalEnv) "lat=999&lon=0") s)
     = [Call_error404]
  /\ requests (br (run (searchedLocation (env := decimalEnv) "lat=999&lon=0") s))
     = requests (br s).
Proof.
  apply (searchedLocation_invalid_query (env := decimalEnv) "lat=999&lon=0").
  right. right. left. exists "lat=999". split; [reflexivity|].
  intros (q & Hq & _ & Hhi). vm_compute in Hq. injection Hq as <-.
  unfold Qle in Hhi. simpl in Hhi. lia.
Defined.

(** The fragment [#/weather?lat=51.5&lon=-0.12]: the renderer is entered
    with the pair (51.5, -0.12). *)
Lemma searchedLocation_london :
  calls_between (initial "")
    (run (searchedLocation (env := decimalEnv) "lat=51.5&lon=-0.12") (initial ""))
  = [Call_updateWeather (Fin 51.5) (Fin (-0.12));
     Call_fetchData (url_currentWeather (Fin 51.5) (Fin (-0.12)))].
Proof. reflexivity. Qed.

(** An answer [{cod: "404", message: ...}] without weather fields. *)
Lemma on_currentWeather_error_status_witness :
  let cw := {| cod := JStr "404"; message := JStr "city not found"; body := None |} in
  let s := run (updateWeather (Fin 0) (Fin 0)) (initial "#/weather?lat=0&lon=0") in
  let s' := run (on_currentWeather (Fin 0) (Fin 0) cw) s in
  result (on_currentWeather (Fin 0) (Fin 0) cw) s = Ok tt
  /\ calls_between s s' = [Call_consoleError (message cw); Call_error404]
  /\ List.filter is_fetch (calls_between s s') = []
  /\ errorContent_display (pg s') = "flex"
  /\ loading_display (pg s') = "none"
  /\ requests (br s') = requests (br s).
Proof.
  apply on_currentWeather_error_status; [reflexivity|].
  intros (q & Hq & _). discriminate Hq.
Defined.

Lemma three_points_spaced : spaced three_points.
Proof.
  intros i a b Ha Hb. destruct i as [|[|[|i]]]; cbn in Ha, Hb;
    try discriminate; injection Ha as <-; injection Hb as <-; reflexivity.
Defined.

Lemma three_points_shaped : Forall shaped three_points.
Proof. repeat constructor; discriminate. Defined.

(** Three points give nine hourly entries. *)
Lemma hourly_section_rows_witness :
  exists h,
    hourlySection (pg (run (on_forecast (sample_forecast three_points)) (initial "")))
    = Some h
    /\ length (data_temp h) = 9
    /\ length (data_wind h) = 9.
Proof.
  destruct (hourly_section_rows (sample_forecast three_points) (initial "")
              three_points_shaped three_points_spaced)
    as (h & Hh & _ & _ & Ht & Hw & _).
  exists h. split; [exact Hh|]. split; [exact Ht|exact Hw].
Defined.


Lemma visual_state_transitions_witness :
  only Error
    (run (on_currentWeather (Fin 0) (Fin 0)
            {| cod := JStr "404"; message := JStr "city not found"; body := None |})
       (run (updateWeather (Fin 0) (Fin 0)) (initial "")))
  /\ only Content
       (run (on_forecast (sample_forecast three_points))
          (run (updateWeather (Fin 0) (Fin 0)) (initial ""))).
Proof.
  split.
  - apply visual_state_transitions; [reflexivity| |discriminate].
    intros (q & Hq & _). discriminate Hq.
  - apply visual_state_transitions;
      [discriminate|exact three_points_shaped|discriminate].
Defined.

Lemma on_load_default_route_witness :
  location_hash (br (run (on_load (env := decimalEnv)) (initial ""))) = "#/current-location"
  /\ on_load (env := decimalEnv) (initial "#/weather?lat=51.5&lon=-0.12")
     = checkHash (env := decimalEnv) (initial "#/weather?lat=51.5&lon=-0.12").
Proof.
  split.
  - exact (proj1 (proj1 (on_load_default_route (env := decimalEnv) (initial "")) eq_refl)).
  - apply (on_load_default_route (env := decimalEnv)). discriminate.
Defined.

Lemma search_input_debounce_witness :
  exists t,
    timers (br (run on_input (set_searchField_value "delhi" (initial ""))))
    = {[ t := 500%Z ]}.
Proof.
  destruct (search_input_debounce (env := decimalEnv) "delhi" (initial "")
              (reachable_initial ""))
    as (_ & _ & H).
  destruct H as (t & _ & Ht & _); [discriminate|].
  exists t. exact Ht.
Defined.

Lemma on_forecast_total_iff_nonempty_witness :
  result (on_forecast (sample_forecast three_points)) (initial "") = Ok tt.
Proof.
  apply (proj2 on_forecast_total_iff_nonempty); [exact three_points_shaped|discriminate].
Defined.

(** The fragment [#/weather?lat=51.5&lon=-0.12], then a good answer: the
    four requests, in the order current weather, reverse geocode, air
    pollution, forecast. *)
Lemma london_four_requests :
  exists s,
    steps (env := decimalEnv)
      [E_load; E_response 0 (R_currentWeather (sample_current (JNum (Fin 200))))]
      (initial "#/weather?lat=51.5&lon=-0.12") = Some s
    /\ List.filter is_fetch (log (br s))
       = [Call_fetchData (url_currentWeather (Fin 51.5) (Fin (-0.12)));
          Call_fetchData (url_reverseGeo (Fin 51.5) (Fin (-0.12)));
          Call_fetchData (url_airPollution (Fin 51.5) (Fin (-0.12)));
          Call_fetchData (url_forecast (Fin 51.5) (Fin (-0.12)))].
Proof. eexists. split; [vm_compute; reflexivity|reflexivity]. Qed.

(** An empty fragment and a refused position request: the page falls back
    to the default location and renders it; [error404] is never called. *)
Lemma refused_position_falls_back :
  exists s,
    steps (env := decimalEnv) [E_load; E_hashchange; E_position None; E_hashchange]
      (initial "") = Some s
    /\ location_hash (br s) = "#/weather?lat=28.6139&lon=77.209"
    /\ log (br s)
       = [Call_checkHash; Call_route "/current-location" ""; Call_getCurrentPosition;
          Call_checkHash; Call_route "/weather" "lat=28.6139&lon=77.209";
          Call_updateWeather (Fin 28.6139) (Fin 77.209);
          Call_fetchData (url_currentWeather (Fin 28.6139) (Fin 77.209))].
Proof. eexists. split; [vm_compute; reflexivity|]. split; reflexivity. Qed.

(** ** More on the router *)


Lemma split_nonempty (c : ascii) (s : string) : JsString.split c s <> [].
Proof.
  destruct s as [|a s]; cbn; [discriminate|].
  destruct (Ascii.eqb a c); [discriminate|].
  destruct (JsString.split c s); discriminate.
Qed.

(** Splitting around a separator splits both sides. *)
Lemma split_append (c : ascii) (x y : string) :
  JsString.split c (x ++ String c y)%string = JsString.split c x ++ JsString.split c y.
Proof.
  induction x as [|a x IH].
  - change (JsString.split c (String c y) = [EmptyString] ++ JsString.split c y).
    cbn. by rewrite Ascii.eqb_refl.
  - change (String a x ++ String c y)%string with (String a (x ++ String c y)%string).
    cbn. destruct (Ascii.eqb a c); [by rewrite IH|].
    rewrite IH. pose proof (split_nonempty c x) as Hne.
    destruct (JsString.split c x) as [|h t]; [congruence|reflexivity].
Qed.

Lemma split_whole (c : ascii) (x : string) :
  JsString.includes c x = false -> JsString.split c x = [x].
Proof.
  induction x as [|a x IH]; cbn; [reflexivity|].
  destruct (Ascii.eqb a c); [discriminate|]. intros H. by rewrite (IH H).
Qed.

Lemma find_app_found {A : Type} (f : A -> bool) (l k : list A) (x : A) :
  find f l = Some x -> find f (l ++ k) = Some x.
Proof.
  induction l as [|a l IH]; cbn; [discriminate|].
  destruct (f a); [done|apply IH].
Qed.

Lemma find_app_other {A : Type} (f : A -> bool) (l : list A) (y : A) :
  f y = false -> find f (l ++ [y]) = find f l.
Proof.
  intros Hy. induction l as [|a l IH]; cbn; [by rewrite Hy|].
  destruct (f a); [reflexivity|apply IH].
Qed.

Section RouterExtras.

Context {env : Env}.

(** [searchedLocation] looks at the query through the two pieces it
    finds. *)
Lemma searchedLocation_pieces (q q' : string) :
  find (JsString.startsWith "lat=") (JsString.split "&" q)
  = find (JsString.startsWith "lat=") (JsString.split "&" q') ->
  find (JsString.startsWith "lon=") (JsString.split "&" q)
  = find (JsString.startsWith "lon=") (JsString.split "&" q') ->
  searchedLocation q = searchedLocation q'.
Proof. intros Ha Hb. unfold searchedLocation. by rewrite Ha, Hb. Qed.



(** X2.  The two pieces may come in either order: a query with the
    latitude first and one with the longitude first are handled alike. *)
Theorem searchedLocation_order (a b : string) (s : state) :
  JsString.includes "&" a = false ->
  JsString.includes "&" b = false ->
  searchedLocation ("lat=" ++ a ++ "&lon=" ++ b)%string s
  = searchedLocation ("lon=" ++ b ++ "&lat=" ++ a)%string s.
Proof.
  intros Ha Hb.
  assert (H1 : JsString.split "&" ("lat=" ++ a ++ "&lon=" ++ b)%string
               = [("lat=" ++ a)%string; ("lon=" ++ b)%string]).
  { change ("lat=" ++ a ++ "&lon=" ++ b)%string
      with (("lat=" ++ a) ++ String "&" ("lon=" ++ b))%string.
    rewrite split_append, !split_whole; [reflexivity|exact Hb|exact Ha]. }
  assert (H2 : JsString.split "&" ("lon=" ++ b ++ "&lat=" ++ a)%string
               = [("lon=" ++ b)%string; ("lat=" ++ a)%string]).
  { change ("lon=" ++ b ++ "&lat=" ++ a)%string
      with (("lon=" ++ b) ++ String "&" ("lat=" ++ a))%string.
    rewrite split_append, !split_whole; [reflexivity|exact Ha|exact Hb]. }
  rewrite (searchedLocation_pieces _ ("lon=" ++ b ++ "&lat=" ++ a)%string);
    [reflexivity| |]; rewrite H1, H2.
  - reflexivity.
  - reflexivity.
Qed.

(** X3.  The first piece of each kind wins: a further [lat=] piece after
    a query that has one already, or a further [lon=] piece after a query
    that has one, changes nothing. *)
Theorem searchedLocation_first_wins (q x : string) (s : state) :
  JsString.includes "&" x = false ->
  (is_Some (find (JsString.startsWith "lat=") (JsString.split "&" q)) ->
   searchedLocation (q ++ "&lat=" ++ x)%string s = searchedLocation q s)
  /\ (is_Some (find (JsString.startsWith "lon=") (JsString.split "&" q)) ->
      searchedLocation (q ++ "&lon=" ++ x)%string s = searchedLocation q s).
Proof.
  intros Hx. split; intros [p Hp].
  - rewrite (searchedLocation_pieces _ q); [reflexivity| |];
      change (q ++ "&lat=" ++ x)%string with (q ++ String "&" ("lat=" ++ x))%string;
      rewrite split_append, (split_whole "&" ("lat=" ++ x)%string) by exact Hx.
    + rewrite Hp. by apply find_app_found.
    + by apply find_app_other.
  - rewrite (searchedLocation_pieces _ q); [reflexivity| |];
      change (q ++ "&lon=" ++ x)%string with (q ++ String "&" ("lon=" ++ x))%string;
      rewrite split_append, (split_whole "&" ("lon=" ++ x)%string) by exact Hx.
    + by apply find_app_other.
    + rewrite Hp. by apply find_app_found.
Qed.

End RouterExtras.

(** ** What each listener leaves alone *)

Lemma stable_ret {A : Type} (P : state -> Prop) (a : A) : stable P (ret a).
Proof. intros s H. exact H. Qed.

Lemma stable_throw {A : Type} (P : state -> Prop) : stable P (@throw A).
Proof. intros s H. exact H. Qed.

Lemma stable_diverge {A : Type} (P : state -> Prop) : stable P (@diverge A).
Proof. intros s H. exact H. Qed.

Lemma stable_get {A : Type} (P : state -> Prop) (f : state -> A) : stable P (get f).
Proof. intros s H. exact H. Qed.

Lemma stable_modify (P : state -> Prop) (f : state -> state) :
  (forall s, P s -> P (f s)) -> stable P (modify f).
Proof. intros Hf s H. by apply Hf. Qed.

Lemma stable_bind {A B : Type} (P : state -> Prop) (m : M A) (k : A -> M B) :
  stable P m -> (forall a, stable P (k a)) -> stable P (bind m k).
Proof.
  intros Hm Hk s H. unfold bind. specialize (Hm s H).
  destruct (m s) as [[a| |] s1]; cbn in *; [by apply Hk|exact Hm|exact Hm].
Qed.

Lemma stable_assign_hash (P : state -> Prop) (v : string) :
  (forall s, P s -> P (set_hashchanges (S (hashchanges (br s))) (set_location_hash v s))) ->
  stable P (assign_hash v).
Proof.
  intros Hf s H. unfold assign_hash, modify. cbn.
  destruct (String.eqb _ _); [exact H|by apply Hf].
Qed.

Section Frames.

Context {env : Env}.

Lemma stable_hourly_repeat (P : state -> Prop) (b : nat) (tz : Z) (p : forecast_point)
    (w : weather_desc) (i hc : Z) :
  (forall h s, P s -> P (set_hourlySection h s)) ->
  stable P (hourly_repeat b tz p w i hc).
Proof.
  intros HP. revert i hc. induction b as [|b IH]; intros i hc; cbn [hourly_repeat];
    destruct (_ && _); try apply stable_ret; try apply stable_diverge.
  apply stable_bind; [|intros _; apply IH].
  unfold append_hour. apply stable_bind; [apply stable_get|intros [x|]];
    [|apply stable_throw].
  apply stable_bind; [apply stable_modify, HP|intros _].
  apply stable_bind; [apply stable_get|intros [y|]]; [|apply stable_throw].
  apply stable_modify, HP.
Qed.

Lemma stable_hourly_loop (P : state -> Prop) (tz : Z) (l : list forecast_point) (hc : Z) :
  (forall h s, P s -> P (set_hourlySection h s)) ->
  stable P (hourly_loop tz l hc).
Proof.
  intros HP. revert hc. induction l as [|p l IH]; intros hc; cbn [hourly_loop];
    [apply stable_ret|].
  destruct (24 <=? hc)%Z; [apply stable_ret|].
  destruct (weather p); [apply stable_throw|].
  apply stable_bind; [by apply stable_hourly_repeat|intros ?; apply IH].
Qed.

Lemma stable_append_day (P : state -> Prop) (li : day_li) :
  (forall x s, P s -> P (set_forecastSection x s)) ->
  stable P (append_day li).
Proof.
  intros HP. unfold append_day. apply stable_bind; [apply stable_get|intros [x|]];
    [apply stable_modify, HP|apply stable_throw].
Qed.

Lemma stable_days_loop (P : state -> Prop) (b : nat) (l : list forecast_point) (i d : Z) :
  (forall x s, P s -> P (set_forecastSection x s)) ->
  stable P (days_loop b l i d).
Proof.
  intros HP. revert i d. induction b as [|b IH]; intros i d; cbn [days_loop];
    destruct (_ && _); try apply stable_ret; try apply stable_diverge.
  destruct (js_index l i) as [p|]; [|apply stable_throw].
  destruct (weather p); [apply stable_throw|].
  apply stable_bind; [by apply stable_append_day|intros _; apply IH].
Qed.

Lemma stable_pad_loop (P : state -> Prop) (b : nat) (l : list forecast_point) (d : Z) :
  (forall x s, P s -> P (set_forecastSection x s)) ->
  stable P (pad_loop b l d).
Proof.
  intros HP. revert d. induction b as [|b IH]; intros d; cbn [pad_loop];
    destruct (d <? 7)%Z; try apply stable_ret; try apply stable_diverge.
  destruct (js_index l _) as [p|]; [|apply stable_throw].
  destruct (weather p); [apply stable_throw|].
  apply stable_bind; [by apply stable_append_day|intros _; apply IH].
Qed.

Lemma stable_search_rows (P : state -> Prop) (l : list location) :
  (forall x s, P s -> P (set_searchResult_list x s)) ->
  stable P (search_rows l).
Proof.
  intros HP. induction l as [|a l IH]; cbn [search_rows]; [apply stable_ret|].
  apply stable_bind; [apply stable_get|intros [x|]]; [|apply stable_throw].
  apply stable_bind; [apply stable_modify, HP|intros _; apply IH].
Qed.

End Frames.

(** Takes a listener apart into its writes; [tac] settles each write and
    whatever else it knows. *)
Ltac stable_with tac :=
  repeat match goal with |- forall _, _ => intro end;
  repeat first
    [ solve [tac]
    | lazymatch goal with
      | |- stable _ (ret _) => apply stable_ret
      | |- stable _ throw => apply stable_throw
      | |- stable _ diverge => apply stable_diverge
      | |- stable _ (get _) => apply stable_get
      | |- stable _ (hourly_loop _ _ _) => apply stable_hourly_loop; intros ? ?
      | |- stable _ (days_loop _ _ _ _) => apply stable_days_loop; intros ? ?
      | |- stable _ (pad_loop _ _ _) => apply stable_pad_loop; intros ? ?
      | |- stable _ (search_rows _) => apply stable_search_rows; intros ? ?
      | |- stable _ (assign_hash _) => apply stable_assign_hash; intros ?
      | |- stable _ (modify _) => apply stable_modify; intros ?
      | |- stable _ (bind _ _) => apply stable_bind; [|intros ?]
      | |- stable _ (match ?x with _ => _ end) => destruct x
      | |- stable _ (let _ := _ in _) => cbv zeta
      end
    | progress unfold error404, updateWeather, on_currentWeather, on_reverseGeo,
        on_airPollution, on_forecast, on_geo, on_timeout, on_input, setTimeout,
        clearTimeout, currentLocation, on_position, on_position_error,
        searchedLocation, checkHash, invoke, on_load, fetchData, call ].

Ltac same := let H := fresh in intros H; first [exact H | reflexivity].

Section FrameTheorems.

Context {env : Env}.

Lemma stable_resume (P : state -> Prop) (k : continuation) (r : response) :
  (forall lat lon cw, stable P (on_currentWeather lat lon cw)) ->
  (forall c l, stable P (on_reverseGeo c l)) ->
  (forall cw l, stable P (on_airPollution cw l)) ->
  (forall f, stable P (on_forecast f)) ->
  (forall l, stable P (on_geo l)) ->
  stable P (resume k r).
Proof. intros H1 H2 H3 H4 H5. destruct k, r; cbn [resume]; auto using stable_throw. Qed.

(** The renderer and the router leave the search box alone. *)
Lemma search_box_kept (v : search) :
  (forall lat lon, stable (fun s => sr s = v) (updateWeather lat lon))
  /\ stable (fun s => sr s = v) error404
  /\ (forall lat lon cw, stable (fun s => sr s = v) (on_currentWeather lat lon cw))
  /\ (forall c l, stable (fun s => sr s = v) (on_reverseGeo c l))
  /\ (forall cw l, stable (fun s => sr s = v) (on_airPollution cw l))
  /\ (forall f, stable (fun s => sr s = v) (on_forecast f))
  /\ stable (fun s => sr s = v) checkHash
  /\ stable (fun s => sr s = v) on_load
  /\ (forall h, stable (fun s => sr s = v) (assign_hash h)).
Proof. repeat split; stable_with same. Qed.

(** The search listeners leave the weather view alone. *)
Lemma page_kept (v : page) :
  stable (fun s => pg s = v) on_input
  /\ stable (fun s => pg s = v) on_timeout
  /\ (forall l, stable (fun s => pg s = v) (on_geo l)).
Proof. repeat split; stable_with same. Qed.

(** None of these listeners turns the content on. *)
Lemma content_kept_off :
  (forall lat lon, stable (fun s => container_fade_in (pg s) = false) (updateWeather lat lon))
  /\ (forall lat lon cw,
         stable (fun s => container_fade_in (pg s) = false) (on_currentWeather lat lon cw))
  /\ (forall c l, stable (fun s => container_fade_in (pg s) = false) (on_reverseGeo c l))
  /\ (forall cw l, stable (fun s => container_fade_in (pg s) = false) (on_airPollution cw l))
  /\ stable (fun s => container_fade_in (pg s) = false) checkHash
  /\ stable (fun s => container_fade_in (pg s) = false) on_load
  /\ (forall h, stable (fun s => container_fade_in (pg s) = false) (assign_hash h)).
Proof. repeat split; stable_with same. Qed.

(** X4.  Typing in the search field, the expiry of its timeout and the
    answer to a geocode request never change the weather view. *)
Theorem search_leaves_weather_view (e : event) (s s' : state) :
  step e s = Some s' -> search_event s e -> pg s' = pg s.
Proof.
  destruct (page_kept (pg s)) as (Hi & Ht & Hg).
  destruct e; cbn [step search_event]; try (intros _ []; fail).
  - intros [= <-] _. by apply Hi.
  - destruct (timers (br s) !! t); [|discriminate]. intros [= <-] _. by apply Ht.
  - intros Hstep [ep Hreq]. rewrite Hreq in Hstep. injection Hstep as <-.
    destruct r; cbn [resume]; try reflexivity. by apply Hg.
Qed.

(** X5.  The page load, the hash changes, the position callbacks and the
    answers to the four weather requests never change the search box:
    its field, its result list and the timeout it holds. *)
Theorem weather_leaves_search_box (e : event) (s s' : state) :
  step e s = Some s' -> weather_event s e -> sr s' = sr s.
Proof.
  destruct (search_box_kept (sr s))
    as (Hu & He & Hc & Hr & Ha & Hf & Hk & Hl & Hh).
  destruct e; cbn [step weather_event]; try (intros _ []; fail).
  - intros [= <-] _. by apply Hl.
  - destruct (hashchanges (br s)); [discriminate|]. intros [= <-] _. by apply Hk.
  - intros [= <-] _. by apply Hh.
  - destruct (positions (br s)); [discriminate|]. intros [= <-] _.
    destruct coords as [[lat lon]|]; [by apply Hu|by apply Hh].
  - intros Hstep (ep & k & Hreq & Hk'). rewrite Hreq in Hstep. injection Hstep as <-.
    destruct k, r; cbn [resume]; try reflexivity; try congruence.
    + by apply Hc.
    + by apply Hr.
    + by apply Ha.
    + by apply Hf.
  - destruct (requests (br s) !! id); [|discriminate]. by intros [= <-] _.
Qed.

(** X6.  The content is turned on by one event only: the answer to a
    forecast request, with a forecast list that is not empty. *)
Theorem content_only_by_forecast (e : event) (s s' : state) :
  step e s = Some s' ->
  container_fade_in (pg s) = false ->
  container_fade_in (pg s') = true ->
  exists id f ep,
    e = E_response id (R_forecast f)
    /\ requests (br s) !! id = Some (ep, K_forecast)
    /\ fc_list f <> [].
Proof.
  destruct content_kept_off as (Hu & Hc & Hr & Ha & Hk & Hl & Hh).
  destruct (page_kept (pg s)) as (Pi & Pt & Pg).
  intros Hstep Hoff Hon.
  assert (Habs : container_fade_in (pg s') = false -> False) by congruence.
  destruct e; cbn [step] in Hstep.
  - injection Hstep as <-. exfalso. by apply Habs, Hl.
  - destruct (hashchanges (br s)); [discriminate|]. injection Hstep as <-.
    exfalso. by apply Habs, Hk.
  - injection Hstep as <-. exfalso. by apply Habs, Hh.
  - injection Hstep as <-. exfalso. apply Habs.
    unfold run. by rewrite Pi.
  - destruct (timers (br s) !! t); [|discriminate]. injection Hstep as <-.
    exfalso. apply Habs. unfold run. by rewrite Pt.
  - destruct (positions (br s)); [discriminate|]. injection Hstep as <-. exfalso.
    apply Habs. destruct coords as [[lat lon]|]; [by apply Hu|by apply Hh].
  - destruct (requests (br s) !! id) as [[ep k]|] eqn:Hreq; [|discriminate].
    injection Hstep as <-.
    destruct k, r; cbn [resume] in *;
      try (exfalso; apply Habs; first [exact Hoff | by apply Hc | by apply Hr
                                       | by apply Ha]).
    + exists id, f, ep. split; [reflexivity|]. split; [exact Hreq|].
      intros Hnil. destruct f as [fl tz]. cbn in Hnil. subst fl.
      unfold run in Hon. rewrite on_forecast_empty in Hon. cbn in Hon. congruence.
    + exfalso. apply Habs. unfold run. by rewrite Pg.
  - destruct (requests (br s) !! id); [|discriminate]. injection Hstep as <-.
    exfalso. by apply Habs.
Qed.

End FrameTheorems.

(** ** More on the callbacks of the renderer *)

Section CallbackExtras.

Context {env : Env}.

Lemma passes_guard (v : jsval) :
  passes v -> truthy v && strict_neq_num v (JsNum.of_Z 200) = false.
Proof.
  intros [Hf|(q & -> & Hq)]; [by rewrite Hf|].
  cbn. apply andb_false_iff. right. apply negb_false_iff. by apply Qeq_bool_iff.
Qed.

(** The current-weather callback on an answer that passes the guard and
    has the weather fields: the store it leaves. *)
Lemma on_currentWeather_ok (lat lon : number) (cw : current_response)
    (b : current_body) (w : weather_desc) (ws : list weather_desc) (s : state) :
  passes (cod cw) -> body cw = Some b -> cw_weather b = w :: ws ->
  let n := next_request (br s) in
  on_currentWeather lat lon cw s
  = (Ok tt,
     set_next_request (S (S (S n)))
       (set_requests
          (<[S (S n) := (url_forecast lat lon, K_forecast)]>
             (<[S n := (url_airPollution lat lon, K_airPollution b)]>
                (<[n := (url_reverseGeo lat lon, K_reverseGeo (next_node (br s)))]>
                   (requests (br s)))))
          (set_log
             (log (br s)
              ++ [Call_fetchData (url_reverseGeo lat lon);
                  Call_fetchData (url_airPollution lat lon);
                  Call_fetchData (url_forecast lat lon)])
             (set_currentWeatherSection
                (currentWeatherSection (pg s) ++ [now_card (next_node (br s)) b w])
                (set_next_node (S (next_node (br s))) s))))).
Proof.
  intros Hp Hb Hw n. subst n. unfold on_currentWeather.
  rewrite (passes_guard _ Hp), Hb, Hw.
  unfold fetchData, call, bind, get, modify. cbn.
  rewrite <- !app_assoc. reflexivity.
Qed.

(** X7.  An answer that passes the guard and has the weather fields:
    the callback ends normally; it issues the reverse-geocode, the
    air-pollution and the forecast request, in that order and for the
    coordinates of the navigation; it adds one card, not yet labelled,
    after the cards already in the section, and changes nothing else on
    the page or in the search box. *)
Theorem on_currentWeather_renders (lat lon : number) (cw : current_response)
    (b : current_body) (w : weather_desc) (ws : list weather_desc) (s : state) :
  passes (cod cw) -> body cw = Some b -> cw_weather b = w :: ws ->
  let s' := run (on_currentWeather lat lon cw) s in
  result (on_currentWeather lat lon cw) s = Ok tt
  /\ calls_between s s'
     = [Call_fetchData (url_reverseGeo lat lon);
        Call_fetchData (url_airPollution lat lon);
        Call_fetchData (url_forecast lat lon)]
  /\ currentWeatherSection (pg s')
     = currentWeatherSection (pg s) ++ [now_card (next_node (br s)) b w]
  /\ pg s' = pg (set_currentWeatherSection (currentWeatherSection (pg s')) s)
  /\ sr s' = sr s.
Proof.
  intros Hp Hb Hw s'. subst s'. unfold run, result.
  rewrite (on_currentWeather_ok lat lon cw b w ws s Hp Hb Hw). cbn [fst snd].
  split; [reflexivity|]. split; [by apply calls_between_app|].
  split; [reflexivity|]. split; reflexivity.
Qed.

(** X8.  An answer that passes the guard but lacks the weather fields,
    or whose weather array is empty: the callback raises before it has
    written anything; the store is the one it found. *)
Theorem on_currentWeather_malformed (lat lon : number) (cw : current_response)
    (s : state) :
  passes (cod cw) ->
  body cw = None \/ (exists b, body cw = Some b /\ cw_weather b = []) ->
  on_currentWeather lat lon cw s = (Throw, s).
Proof.
  intros Hp H. unfold on_currentWeather. rewrite (passes_guard _ Hp).
  destruct H as [->|(b & -> & ->)]; reflexivity.
Qed.



(** X10.  The air-pollution callback.  An empty list, or an index for
    which the table of [module.js] has no entry, raises and changes
    nothing.  Otherwise one card, built from the first reading, the
    table entry and the current-weather fields the closure captured, is
    added to the highlights; nothing else changes. *)
Theorem on_airPollution_cases (cw : current_body) (s : state) :
  on_airPollution cw [] s = (Throw, s)
  /\ (forall a l, aqiText (aqi a) = None -> on_airPollution cw (a :: l) s = (Throw, s))
  /\ (forall a l lab,
         aqiText (aqi a) = Some lab ->
         on_airPollution cw (a :: l) s
         = (Ok tt,
            set_highlightSection (highlightSection (pg s) ++ [highlights cw a lab]) s)).
Proof.
  split; [reflexivity|]. split; intros a l.
  - intros H. unfold on_airPollution. by rewrite H.
  - intros lab H. unfold on_airPollution. by rewrite H.
Qed.



End CallbackExtras.

(** ** More on the search box *)

Section SearchExtras.

Context {env : Env}.

(** X12.  In every store the page can be in, at most one timeout is
    pending, and it is the one [searchTimeout] holds. *)
Theorem one_pending_timeout (s : state) (t1 t2 : positive) (m1 m2 : Z) :
  reachable s ->
  timers (br s) !! t1 = Some m1 ->
  timers (br s) !! t2 = Some m2 ->
  t1 = t2 /\ searchTimeout (sr s) = Some t1 /\ m1 = searchTimeoutDuration.
Proof.
  intros Hr H1 H2. pose proof (debounce_inv_reachable s Hr) as Hinv.
  destruct (Hinv _ _ H1) as [E1 _]. destruct (Hinv _ _ H2) as [E2 _].
  assert (t1 = t2) as <- by congruence. split; [reflexivity|]. split; [exact E1|].
  clear H2 E2 Hinv m2. revert t1 m1 H1 E1.
  induction Hr as [hash|e s s' Hr IH Hstep]; intros t1 m1 H1 E1.
  - cbn in H1. by rewrite lookup_empty in H1.
  - pose proof (debounce_inv_reachable s Hr) as Hinv.
    assert (Hsame : forall s0 (m : M unit),
               keeps m -> debounce_view s0 = debounce_view s ->
               timers (br (run m s0)) !! t1 = Some m1 ->
               searchTimeout (sr (run m s0)) = Some t1 ->
               m1 = searchTimeoutDuration).
    { intros s0 m Hm Hv H1' E1'. unfold run in H1', E1'.
      pose proof (Hm s0) as Hk. rewrite Hv in Hk. unfold debounce_view in Hk.
      injection Hk as Ht _ Hs. rewrite Ht in H1'. rewrite Hs in E1'. by eapply IH. }
    destruct e; cbn [step] in Hstep.
    + injection Hstep as <-. exact (Hsame s on_load keeps_on_load eq_refl H1 E1).
    + destruct (hashchanges (br s)) as [|n]; [discriminate|]. injection Hstep as <-.
      exact (Hsame (set_hashchanges n s) checkHash keeps_checkHash eq_refl H1 E1).
    + injection Hstep as <-.
      exact (Hsame s (assign_hash hash) (keeps_assign_hash hash) eq_refl H1 E1).
    + injection Hstep as <-. rewrite on_input_timers in H1. cbv zeta in H1.
      rewrite (cleared_empty (set_searchField_value value s)) in H1
        by (by eapply debounce_inv_view; [|exact Hinv]).
      destruct (JsString.truthy _); [|by rewrite lookup_empty in H1].
      apply lookup_insert_Some in H1 as [[_ <-]|[_ H1]];
        [reflexivity|by rewrite lookup_empty in H1].
    + destruct (timers (br s) !! t) eqn:Ht; [|discriminate]. injection Hstep as <-.
      pose proof (keeps_on_timeout (set_timers (delete t (timers (br s))) s)) as Hk.
      unfold debounce_view in Hk. cbn [set_timers on_browser br sr timers next_timer] in Hk.
      unfold run in H1, E1.
      assert (Ht' : timers (br (snd (on_timeout (set_timers (delete t (timers (br s))) s))))
                    = delete t (timers (br s))) by congruence.
      assert (Hs' : searchTimeout (sr (snd (on_timeout (set_timers (delete t (timers (br s))) s))))
                    = searchTimeout (sr s)) by congruence.
      rewrite Ht' in H1. rewrite Hs' in E1.
      apply lookup_delete_Some in H1 as [_ H1]. by eapply IH.
    + destruct (positions (br s)) as [|n]; [discriminate|]. injection Hstep as <-.
      destruct coords as [[lat lon]|].
      * exact (Hsame (set_positions n s) (on_position lat lon)
                 (keeps_updateWeather lat lon) eq_refl H1 E1).
      * exact (Hsame (set_positions n s) on_position_error
                 (keeps_assign_hash defaultLocation) eq_refl H1 E1).
    + destruct (requests (br s) !! id) as [[? k]|]; [|discriminate].
      injection Hstep as <-.
      exact (Hsame (set_requests (delete id (requests (br s))) s) (resume k r)
               (keeps_resume k r) eq_refl H1 E1).
    + destruct (requests (br s) !! id); [|discriminate]. injection Hstep as <-.
      by eapply IH.
Qed.

(** A burst of input events, one after the other. *)
Lemma burst_of_inputs (vs : list string) (s : state) :
  reachable s ->
  exists s' cs,
    steps (map E_input vs) s = Some s'
    /\ reachable s'
    /\ log (br s') = log (br s) ++ cs
    /\ List.filter is_fetch cs = []
    /\ requests (br s') = requests (br s)
    /\ pg s' = pg s
    /\ forall v, last vs = Some v ->
         searchField_value (sr s') = v
         /\ timers (br s')
            = if JsString.truthy v
              then {[ Pos.pred (next_timer (br s')) := searchTimeoutDuration ]}
              else ∅.
Proof.
  revert s. induction vs as [|v vs IH]; intros s Hr.
  - exists s, []. cbn. rewrite app_nil_r. repeat split; try done.
  - cbn [map steps step].
    set (s0 := set_searchField_value v s). set (s1 := run on_input s0).
    assert (Hr1 : reachable s1) by (by eapply (reachable_step (E_input v) s)).
    destruct (IH s1 Hr1) as (s' & cs & Hsteps & Hr' & Hlog & Hnf & Hreq & Hpg & Hlast).
    pose proof (on_input_calls s0) as Hc. fold s1 in Hc.
    destruct (on_input_search s0) as (Hv & Hq & Hn & _ & _). fold s1 in Hv, Hq, Hn.
    destruct (page_kept (pg s0)) as (Hp & _ & _).
    exists s'. eexists. split; [exact Hsteps|]. split; [exact Hr'|].
    split; [rewrite Hlog, Hc; change (log (br s0)) with (log (br s));
            rewrite <- !app_assoc; reflexivity|].
    split; [|split; [by rewrite Hreq, Hq|split]].
    + rewrite !List.filter_app, Hnf. unfold cancellation.
      destruct (searchTimeout (sr s0)), (JsString.truthy _); reflexivity.
    + rewrite Hpg. by apply Hp.
    + intros v' Hv'. destruct vs as [|v2 vs].
      * cbn in Hv'. injection Hv' as <-. cbn in Hsteps. injection Hsteps as <-.
        split; [exact Hv|].
        subst s1. rewrite on_input_timers. cbv zeta.
        rewrite (cleared_empty s0)
          by (eapply debounce_inv_view; [|exact (debounce_inv_reachable s Hr)];
              reflexivity).
        rewrite Hn. change (searchField_value (sr s0)) with v.
        destruct (JsString.truthy v); [|reflexivity].
        by rewrite Pos.pred_succ.
      * apply Hlast. exact Hv'.
Qed.

(** X13.  However many input events follow one another before a timeout
    expires, no request is issued and the weather view stays as it is;
    afterwards the field holds the last value typed, and one timeout is
    pending if that value is not empty, none if it is. *)
Theorem typing_is_debounced (vs : list string) (v : string) (s : state) :
  reachable s ->
  last vs = Some v ->
  exists s',
    steps (map E_input vs) s = Some s'
    /\ List.filter is_fetch (calls_between s s') = []
    /\ requests (br s') = requests (br s)
    /\ pg s' = pg s
    /\ searchField_value (sr s') = v
    /\ (v <> "" -> exists t, timers (br s') = {[ t := 500%Z ]})
    /\ (v = "" -> timers (br s') = ∅).
Proof.
  intros Hr Hlast.
  destruct (burst_of_inputs vs s Hr) as (s' & cs & Hsteps & _ & Hlog & Hnf & Hreq & Hpg & Hl).
  destruct (Hl v Hlast) as [Hv Ht].
  exists s'. split; [exact Hsteps|]. split; [by rewrite (calls_between_app s s' cs)|].
  split; [exact Hreq|]. split; [exact Hpg|]. split; [exact Hv|]. split.
  - intros Hne. assert (JsString.truthy v = true) as E by (by destruct v).
    rewrite E in Ht. eauto.
  - intros ->. exact Ht.
Qed.

End SearchExtras.

(** ** More on the forecast callback *)

Lemma picks_count {A : Type} (n i : nat) (l : list A) :
  length (picks n i l) = Nat.min n ((length l + 7 - i) / 8).
Proof.
  revert i. induction n as [|n IH]; intros i; cbn [picks]; [reflexivity|].
  destruct (l !! i) as [p|] eqn:Hi.
  - apply lookup_lt_Some in Hi. cbn [length]. rewrite IH.
    replace (length l + 7 - i) with (length l + 7 - (i + 8) + 1 * 8) by lia.
    rewrite Nat.div_add by lia. lia.
  - apply lookup_ge_None in Hi. rewrite Nat.div_small by lia. cbn. lia.
Qed.

(** When the first listener is blind to [Q], the store keeps [Q] unless
    the whole sequence ends normally. *)
Lemma bind_ok_or_kept {A B : Type} (Q : state -> Prop) (m : M A) (k : A -> M B) :
  stable Q m ->
  (forall a s, Q s -> (exists b, fst (k a s) = Ok b) \/ Q (snd (k a s))) ->
  forall s, Q s -> (exists b, fst (bind m k s) = Ok b) \/ Q (snd (bind m k s)).
Proof.
  intros Hm Hk s HQ. unfold bind. specialize (Hm s HQ).
  destruct (m s) as [[a| |] s1]; cbn in *; [by apply Hk|by right|by right].
Qed.

Section ForecastExtras.

Context {env : Env}.

(** X14.  The forecast card on a non-empty list of shaped points: seven
    rows.  The first min(7, n / 8) of them, for n points, show the points
    at 7, 15, 23, ...; the others repeat the last point, dated by the
    row's position less four days.  So nothing is padded from 56 points
    on, and below 8 points every row is a copy of the last point. *)
Theorem forecast_card_rows (f : forecast_response) (s : state) :
  fc_list f <> [] -> Forall shaped (fc_list f) ->
  let l := fc_list f in
  let real := Nat.min 7 (length l / 8) in
  exists rows,
    forecastSection (pg (run (on_forecast f) s)) = Some rows
    /\ length rows = 7
    /\ (forall k, k < real ->
          exists p, l !! (7 + 8 * k) = Some p /\ rows !! k = Some (real_day p))
    /\ (forall k, real <= k < 7 ->
          exists p, last l = Some p /\ rows !! k = Some (pad_day p (Z.of_nat k)))
    /\ (56 <= length l -> real = 7)
    /\ (length l < 8 -> real = 0).
Proof.
  intros Hne Hl l real.
  destruct (seven_day_section f s Hne Hl) as (rows & Hrows & Hlen & Hreal & Hpad).
  assert (Hcount : length (picks 7 7 (fc_list f)) = real).
  { rewrite picks_count. subst real l. f_equal. f_equal. lia. }
  exists rows. split; [exact Hrows|]. split; [exact Hlen|]. split; [|split; [|split]].
  - intros k Hk. rewrite <- Hcount in Hk. apply lookup_lt_is_Some in Hk as [p Hp].
    exists p. by apply Hreal.
  - intros k Hk. rewrite <- Hcount in Hk. destruct (Hpad k Hk) as (p & H1 & H2 & _).
    eauto.
  - intros H56. subst real.
    assert (7 <= length l / 8) by (apply Nat.div_le_lower_bound; lia). lia.
  - intros H8. subst real. rewrite Nat.div_small by exact H8. reflexivity.
Qed.

Lemma on_forecast_frame (f : forecast_response)
    (v : string * bool * list current_card * list highlight_card) :
  stable (fun s => frame_of s = v) (on_forecast f).
Proof. stable_with same. Qed.

Lemma rendered_page (f : forecast_response) (s1 s2 : state) :
  frame_of s1 = frame_of s2 -> pg (rendered f s1) = pg (rendered f s2).
Proof.
  destruct s1 as [[] ? ?], s2 as [[] ? ?]. unfold frame_of. cbn.
  intros [= -> -> -> ->]. reflexivity.
Qed.

(** X15.  The last forecast answer wins: whatever an earlier answer
    left on the page, also one that made the callback raise half way,
    the page after a good answer is the page that answer alone would
    have given. *)
Theorem forecast_last_answer_wins (f1 f2 : forecast_response) (s : state) :
  fc_list f2 <> [] -> Forall shaped (fc_list f2) ->
  pg (run (on_forecast f2) (run (on_forecast f1) s)) = pg (run (on_forecast f2) s).
Proof.
  intros Hne Hl. unfold run at 1 3. rewrite !(on_forecast_ok f2 _ Hne Hl). cbn [snd].
  apply rendered_page. by apply (on_forecast_frame f1 (frame_of s)).
Qed.

(** X16.  When the forecast callback does not end normally, whatever
    the reason, the loading panel, the scroll lock and the content flag
    are as it found them, and so are the error panel and the two other
    sections: after [updateWeather] the page stays in the loading
    state. *)
Theorem on_forecast_raise_keeps_loading (f : forecast_response) (s : state) :
  result (on_forecast f) s <> Ok tt ->
  let s' := run (on_forecast f) s in
  loading_display (pg s') = loading_display (pg s)
  /\ container_overflowY (pg s') = container_overflowY (pg s)
  /\ container_fade_in (pg s') = container_fade_in (pg s)
  /\ frame_of s' = frame_of s.
Proof.
  intros Hres s'. subst s'.
  set (Q := fun x : state =>
              (loading_display (pg x), container_overflowY (pg x),
               container_fade_in (pg x), frame_of x)
              = (loading_display (pg s), container_overflowY (pg s),
                 container_fade_in (pg s), frame_of s)).
  assert (H : (exists b, fst (on_forecast f s) = Ok b) \/ Q (snd (on_forecast f s))).
  { unfold on_forecast. cbv zeta.
    apply bind_ok_or_kept; [subst Q; stable_with same| |reflexivity]. intros _.
    apply bind_ok_or_kept; [subst Q; stable_with same|]. intros _.
    apply bind_ok_or_kept; [subst Q; stable_with same|]. intros _.
    apply bind_ok_or_kept; [subst Q; stable_with same|]. intros d.
    apply bind_ok_or_kept; [subst Q; stable_with same|]. intros _ s0 _.
    left. by exists tt. }
  destruct H as [[[] Hok]|HQ]; [by exfalso; apply Hres|].
  subst Q. cbn beta in HQ. unfold run. repeat split; congruence.
Qed.

Lemma updateWeather_fields (lat lon : number) (s : state) :
  let s1 := run (updateWeather lat lon) s in
  requests (br s1)
  = <[next_request (br s) := (url_currentWeather lat lon, K_currentWeather lat lon)]>
      (requests (br s))
  /\ next_request (br s1) = S (next_request (br s))
  /\ next_node (br s1) = next_node (br s)
  /\ log (br s1)
     = log (br s)
       ++ [Call_updateWeather lat lon; Call_fetchData (url_currentWeather lat lon)]
  /\ currentWeatherSection (pg s1) = []
  /\ errorContent_display (pg s1) = "none".
Proof.
  unfold updateWeather, run, fetchData, call, bind, get, modify. cbn.
  destruct (String.eqb _ _); cbn; rewrite <- !app_assoc; repeat split.
Qed.

Lemma answer_current (lat lon : number) (cw : current_response) (b : current_body)
    (w : weather_desc) (ws : list weather_desc) (s1 : state) (n : nat) (ep : endpoint) :
  passes (cod cw) -> body cw = Some b -> cw_weather b = w :: ws ->
  requests (br s1) !! n = Some (ep, K_currentWeather lat lon) ->
  exists s2,
    step (E_response n (R_currentWeather cw)) s1 = Some s2
    /\ requests (br s2) !! S (S (next_request (br s1)))
       = Some (url_forecast lat lon, K_forecast)
    /\ log (br s2)
       = log (br s1)
         ++ [Call_fetchData (url_reverseGeo lat lon);
             Call_fetchData (url_airPollution lat lon);
             Call_fetchData (url_forecast lat lon)]
    /\ currentWeatherSection (pg s2)
       = currentWeatherSection (pg s1) ++ [now_card (next_node (br s1)) b w]
    /\ errorContent_display (pg s2) = errorContent_display (pg s1).
Proof.
  intros Hp Hb Hw Hreq. eexists. split.
  { unfold step. rewrite Hreq. cbn [resume]. unfold run.
    rewrite (on_currentWeather_ok lat lon cw b w ws _ Hp Hb Hw). reflexivity. }
  split; [apply lookup_insert_eq|]. repeat split.
Qed.

Lemma answer_forecast (f : forecast_response) (s2 : state) (k : nat) (ep : endpoint) :
  fc_list f <> [] -> Forall shaped (fc_list f) ->
  requests (br s2) !! k = Some (ep, K_forecast) ->
  exists s3,
    step (E_response k (R_forecast f)) s2 = Some s3
    /\ loading_display (pg s3) = "none"
    /\ container_fade_in (pg s3) = true
    /\ errorContent_display (pg s3) = errorContent_display (pg s2)
    /\ currentWeatherSection (pg s3) = currentWeatherSection (pg s2)
    /\ forecastSection (pg s3) = Some (seven_days (fc_list f))
    /\ hourlySection (pg s3)
       = Some (add_rows no_rows (hour_rows (city_timezone f) (fc_list f)))
    /\ log (br s3) = log (br s2).
Proof.
  intros Hne Hl Hreq. eexists. split.
  { unfold step. rewrite Hreq. cbn [resume]. unfold run.
    rewrite (on_forecast_ok f _ Hne Hl). reflexivity. }
  repeat split.
Qed.

(** X17.  A navigation from start to end.  After [updateWeather], the
    answer to its request, when it passes the guard and has the weather
    fields, and then the answer to the forecast request that callback
    issued, when its list is non-empty and shaped, leave the page in the
    content state alone, with the one card of this navigation, seven
    forecast rows and min(24, 3 n) hourly entries; the four requests
    went out in the order current weather, reverse geocode, air
    pollution, forecast, all for the coordinates of the navigation. *)
Theorem navigation_renders (lat lon : number) (cw : current_response)
    (b : current_body) (w : weather_desc) (ws : list weather_desc)
    (f : forecast_response) (s : state) :
  passes (cod cw) -> body cw = Some b -> cw_weather b = w :: ws ->
  fc_list f <> [] -> Forall shaped (fc_list f) ->
  let n := next_request (br s) in
  let s1 := run (updateWeather lat lon) s in
  exists s2 s3,
    step (E_response n (R_currentWeather cw)) s1 = Some s2
    /\ step (E_response (S (S (S n))) (R_forecast f)) s2 = Some s3
    /\ only Content s3
    /\ List.filter is_fetch (calls_between s s3)
       = [Call_fetchData (url_currentWeather lat lon);
          Call_fetchData (url_reverseGeo lat lon);
          Call_fetchData (url_airPollution lat lon);
          Call_fetchData (url_forecast lat lon)]
    /\ currentWeatherSection (pg s3) = [now_card (next_node (br s)) b w]
    /\ forecastSection (pg s3) = Some (seven_days (fc_list f))
    /\ length (seven_days (fc_list f)) = 7
    /\ hourlySection (pg s3)
       = Some (add_rows no_rows (hour_rows (city_timezone f) (fc_list f)))
    /\ length (hour_rows (city_timezone f) (fc_list f))
       = Nat.min 24 (3 * length (fc_list f)).
Proof.
  intros Hp Hb Hw Hne Hl. cbv zeta.
  destruct (updateWeather_fields lat lon s) as (Hreq & Hnext & Hnode & Hlog & Hcards & Herr).
  cbv zeta in Hreq, Hnext, Hnode, Hlog, Hcards, Herr.
  assert (Hr1 : requests (br (run (updateWeather lat lon) s)) !! next_request (br s)
                = Some (url_currentWeather lat lon, K_currentWeather lat lon))
    by (rewrite Hreq; apply lookup_insert_eq).
  destruct (answer_current lat lon cw b w ws _ _ _ Hp Hb Hw Hr1)
    as (s2 & Hstep1 & Hr2 & Hlog2 & Hcards2 & Herr2).
  rewrite Hnext in Hr2. rewrite Hlog, <- app_assoc in Hlog2.
  rewrite Hcards, Hnode in Hcards2. rewrite Herr in Herr2.
  destruct (answer_forecast f s2 _ _ Hne Hl Hr2)
    as (s3 & Hstep2 & Hload & Hfade & Herr3 & Hcards3 & Hdays & Hhours & Hlog3).
  rewrite Herr2 in Herr3. rewrite Hcards2 in Hcards3. rewrite Hlog2 in Hlog3.
  exists s2, s3. split; [exact Hstep1|]. split; [exact Hstep2|].
  split.
  { intros [| |]; cbn [active]; split; intros H; try reflexivity; try discriminate.
    - rewrite Hload in H. discriminate.
    - exact Hfade.
    - rewrite Herr3 in H. discriminate. }
  split; [by rewrite (calls_between_app _ _ _ Hlog3)|].
  split; [exact Hcards3|]. split; [exact Hdays|].
  split; [by apply seven_days_length|]. split; [exact Hhours|].
  unfold hour_rows. by rewrite three_each_length.
Qed.

End ForecastExtras.

(** ** Further concrete runs *)


Lemma searchedLocation_order_witness :
  searchedLocation (env := decimalEnv) "lat=51.5&lon=-0.12" (initial "")
  = searchedLocation (env := decimalEnv) "lon=-0.12&lat=51.5" (initial "").
Proof.
  exact (searchedLocation_order (env := decimalEnv) "51.5" "-0.12" (initial "")
           eq_refl eq_refl).
Defined.

Lemma searchedLocation_first_wins_witness :
  searchedLocation (env := decimalEnv) "lat=1&lon=2&lat=999" (initial "")
  = searchedLocation (env := decimalEnv) "lat=1&lon=2" (initial "").
Proof.
  apply (proj1 (searchedLocation_first_wins (env := decimalEnv) "lat=1&lon=2" "999"
                  (initial "") eq_refl)).
  exists "lat=1". reflexivity.
Defined.

Lemma search_leaves_weather_view_witness :
  pg (run on_input (set_searchField_value "delhi" (initial ""))) = pg (initial "").
Proof.
  apply (search_leaves_weather_view (env := decimalEnv) (E_input "delhi") (initial ""));
    [reflexivity|exact I].
Defined.

Lemma weather_leaves_search_box_witness :
  sr (run (on_load (env := decimalEnv)) (initial "#/nowhere")) = sr (initial "#/nowhere").
Proof.
  apply (weather_leaves_search_box (env := decimalEnv) E_load (initial "#/nowhere"));
    [reflexivity|exact I].
Defined.

Lemma content_only_by_forecast_witness :
  exists id f ep,
    E_response 0 (R_forecast (sample_forecast three_points))
    = E_response id (R_forecast f)
    /\ requests (br awaiting_forecast) !! id = Some (ep, K_forecast)
    /\ fc_list f <> [].
Proof.
  refine (content_only_by_forecast (env := decimalEnv)
            (E_response 0 (R_forecast (sample_forecast three_points)))
            awaiting_forecast _ _ _ _);
    [vm_compute; reflexivity|reflexivity|reflexivity].
Defined.

Lemma sample_passes : passes (cod (sample_current (JNum (Fin 200)))).
Proof. right. exists 200%Q. split; reflexivity. Defined.

Lemma on_currentWeather_renders_witness :
  result (on_currentWeather (Fin 0) (Fin 0) (sample_current (JNum (Fin 200))))
    (initial "") = Ok tt.
Proof.
  exact (proj1 (on_currentWeather_renders (Fin 0) (Fin 0)
                  (sample_current (JNum (Fin 200))) sample_body clear_sky []
                  (initial "") sample_passes eq_refl eq_refl)).
Defined.

Lemma on_currentWeather_malformed_witness :
  on_currentWeather (Fin 0) (Fin 0)
    {| cod := JNum (Fin 200); message := JUndefined; body := None |} (initial "")
  = (Throw, initial "").
Proof.
  apply on_currentWeather_malformed; [exact sample_passes|left; reflexivity].
Defined.


Lemma on_airPollution_cases_witness :
  on_airPollution (env := decimalEnv) sample_body [sample_air 9] (initial "")
  = (Throw, initial "").
Proof.
  apply (proj1 (proj2 (on_airPollution_cases (env := decimalEnv) sample_body (initial "")))).
  reflexivity.
Defined.


Lemma typed_once_reachable :
  reachable (env := decimalEnv) (run on_input (set_searchField_value "a" (initial ""))).
Proof.
  exact (reachable_step (E_input "a") (initial "") _ (reachable_initial "") eq_refl).
Defined.

Lemma one_pending_timeout_witness :
  1%positive = 1%positive
  /\ searchTimeout (sr (run on_input (set_searchField_value "a" (initial ""))))
     = Some 1%positive
  /\ 500%Z = searchTimeoutDuration.
Proof.
  apply (one_pending_timeout (env := decimalEnv) _ 1 1 500 500 typed_once_reachable);
    vm_compute; reflexivity.
Defined.

Lemma typing_is_debounced_witness :
  exists s',
    steps (env := decimalEnv) (map E_input ["d"; "de"; "del"]) (initial "") = Some s'
    /\ requests (br s') = requests (br (initial ""))
    /\ searchField_value (sr s') = "del".
Proof.
  destruct (typing_is_debounced (env := decimalEnv) ["d"; "de"; "del"] "del" (initial "")
              (reachable_initial "") eq_refl)
    as (s' & Hsteps & _ & Hreq & _ & Hv & _).
  exists s'. split; [exact Hsteps|]. split; [exact Hreq|exact Hv].
Defined.

Lemma three_points_nonempty : three_points <> [].
Proof. discriminate. Defined.

Lemma forecast_card_rows_witness :
  exists rows,
    forecastSection (pg (run (on_forecast (sample_forecast three_points)) (initial "")))
    = Some rows
    /\ length rows = 7.
Proof.
  destruct (forecast_card_rows (sample_forecast three_points) (initial "")
              three_points_nonempty three_points_shaped)
    as (rows & Hrows & Hlen & _).
  exists rows. split; [exact Hrows|exact Hlen].
Defined.

Lemma forecast_last_answer_wins_witness :
  pg (run (on_forecast (sample_forecast three_points))
        (run (on_forecast (sample_forecast [])) (initial "")))
  = pg (run (on_forecast (sample_forecast three_points)) (initial "")).
Proof.
  exact (forecast_last_answer_wins (sample_forecast []) (sample_forecast three_points)
           (initial "") three_points_nonempty three_points_shaped).
Defined.

Lemma on_forecast_raise_keeps_loading_witness :
  loading_display
    (pg (run (on_forecast (sample_forecast []))
           (run (updateWeather (Fin 0) (Fin 0)) (initial ""))))
  = loading_display (pg (run (updateWeather (Fin 0) (Fin 0)) (initial ""))).
Proof.
  apply (on_forecast_raise_keeps_loading (sample_forecast [])
           (run (updateWeather (Fin 0) (Fin 0)) (initial ""))).
  discriminate.
Defined.

Lemma navigation_renders_witness :
  exists s2 s3,
    step (env := decimalEnv) (E_response 0 (R_currentWeather (sample_current (JNum (Fin 200)))))
      (run (updateWeather (Fin 0) (Fin 0)) (initial "")) = Some s2
    /\ step (env := decimalEnv) (E_response 3 (R_forecast (sample_forecast three_points))) s2
       = Some s3
    /\ only Content s3.
Proof.
  destruct (navigation_renders (env := decimalEnv) (Fin 0) (Fin 0)
              (sample_current (JNum (Fin 200))) sample_body clear_sky []
              (sample_forecast three_points) (initial "")
              sample_passes eq_refl eq_refl three_points_nonempty three_points_shaped)
    as (s2 & s3 & H1 & H2 & H3 & _).
  exists s2, s3. split; [exact H1|]. split; [exact H2|exact H3].
Defined.
